(** * apns-ms: the binary APNS codec, the worker and the client

    A shallow embedding of the Go package [apns]:
    - [Notification.Bytes] and [PushNotificationCommand.Bytes]
      (item-based binary frame),
    - [NewCommandErrorFromAPNSResponse] (6-byte error response),
    - [FeedbackResponse.addEntryFromBytes] and the read loop of
      [Client.CheckFeedbackService],
    - [Client.ExecuteCommand], the hand-over to a ready worker,
      [worker.executeCommand] and one turn of
      [worker.executionLoopRoutine], over an explicit model of Go channels.

    Bytes are [Byte.byte], Go strings are [string], fixed-width integers
    are [Z] with their wrap-around written out, Go maps are [gmap]. *)

From Stdlib Require Import ZArith NArith Lia Bool.
From Stdlib Require Import Strings.Byte Strings.Ascii Strings.String.
From Stdlib Require Import DecimalString.
From stdpp Require Import base option list sorting strings gmap.

Local Open Scope Z_scope.

(** ** Errors and results *)

(** Go [error] values that the package creates or passes on. *)
Inductive error : Type :=
| errors_New (msg : string)            (* errors.New(msg) *)
| hex_InvalidByteError (b : byte)      (* encoding/hex: invalid byte *)
| hex_ErrLength                        (* encoding/hex: odd length hex string *)
| json_MarshalerError (e : error)      (* json: error calling MarshalJSON *)
| json_UnsupportedError (msg : string) (* json: unsupported type or value *)
| io_EOF                               (* io.EOF *)
| io_ErrUnexpectedEOF                  (* io.ErrUnexpectedEOF *)
| net_Timeout                          (* a net.Error whose Timeout() is true *)
| net_OpError (msg : string).          (* any other transport error *)

Global Instance byte_eq_dec : EqDecision byte := Byte.byte_eq_dec.

Global Instance error_eq_dec : EqDecision error.
Proof. solve_decision. Defined.

(** [err == io.EOF]. *)
Definition is_EOF (err : option error) : bool :=
  match err with
  | Some io_EOF => true
  | _ => false
  end.

(** [netErr, ok := err.(net.Error); ok && netErr.Timeout()]. *)
Definition is_Timeout (err : option error) : bool :=
  match err with
  | Some net_Timeout => true
  | _ => false
  end.

(** [(value, err)] results of Go functions that return no value on error. *)
Inductive Result (A : Type) : Type :=
| Ok (a : A)
| Err (e : error).
Arguments Ok {A} a.
Arguments Err {A} e.

Definition bind {A B} (r : Result A) (k : A -> Result B) : Result B :=
  match r with
  | Ok a => k a
  | Err e => Err e
  end.

Notation "'let!' x ':=' r 'in' k" := (bind r (fun x => k))
  (at level 10, x name, r at level 100, k at level 200).

Global Instance Result_eq_dec {A} `{EqDecision A} : EqDecision (Result A).
Proof. solve_decision. Defined.

Definition is_Ok {A} (r : Result A) : bool :=
  match r with Ok _ => true | Err _ => false end.

Definition is_Err {A} (r : Result A) : bool := negb (is_Ok r).

(** ** Bytes and big-endian integers *)

Definition byte_to_Z (b : byte) : Z := Z.of_N (Byte.to_N b).

(** [byte(v)] / [uint8(v)]: keep the low eight bits. *)
Definition byte_of_Z (z : Z) : byte :=
  match Byte.of_N (Z.to_N (Z.land z 255)) with
  | Some b => b
  | None => x00
  end.

(** [binary.Write(buf, binary.BigEndian, v)] for an integer [v] of [w]
    bytes: most significant byte first, [v] truncated to [8*w] bits. *)
Fixpoint BigEndian_put (w : nat) (v : Z) : list byte :=
  match w with
  | O => []
  | S w' => byte_of_Z (Z.shiftr v (8 * Z.of_nat w')) :: BigEndian_put w' v
  end.

Definition write_uint8 (v : Z) : list byte := BigEndian_put 1 v.
Definition write_uint16 (v : Z) : list byte := BigEndian_put 2 v.
Definition write_uint32 (v : Z) : list byte := BigEndian_put 4 v.
Definition write_int64 (v : Z) : list byte := BigEndian_put 8 v.

(** [binary.BigEndian.UintNN(b)]: the unsigned value of the bytes [b]. *)
Definition BigEndian_uint (bs : list byte) : Z :=
  fold_left (fun acc b => Z.lor (Z.shiftl acc 8) (byte_to_Z b)) bs 0.

(** ** encoding/hex *)

Definition hextable : list byte :=
  list_byte_of_string "0123456789abcdef".

(** [hex.EncodeToString]: two lower-case digits per byte. *)
Definition hex_digit (v : Z) : byte := nth (Z.to_nat v) hextable x00.

Definition hex_Encode (src : list byte) : list byte :=
  flat_map (fun b => [hex_digit (Z.shiftr (byte_to_Z b) 4);
                      hex_digit (Z.land (byte_to_Z b) 15)]) src.

Definition hex_EncodeToString (src : list byte) : string :=
  string_of_list_byte (hex_Encode src).

(** [fromHexChar]: the value of a hexadecimal digit, either case. *)
Definition fromHexChar (c : byte) : option Z :=
  let n := byte_to_Z c in
  if (48 <=? n) && (n <=? 57) then Some (n - 48)
  else if (97 <=? n) && (n <=? 102) then Some (n - 97 + 10)
  else if (65 <=? n) && (n <=? 70) then Some (n - 65 + 10)
  else None.

(** [hex.Decode]: the bytes decoded so far and the error, if any. An
    invalid digit is reported before an odd length. *)
Fixpoint hex_Decode (src : list byte) : list byte * option error :=
  match src with
  | [] => ([], None)
  | [p] =>
      match fromHexChar p with
      | None => ([], Some (hex_InvalidByteError p))
      | Some _ => ([], Some hex_ErrLength)
      end
  | p :: q :: rest =>
      match fromHexChar p, fromHexChar q with
      | None, _ => ([], Some (hex_InvalidByteError p))
      | Some _, None => ([], Some (hex_InvalidByteError q))
      | Some a, Some b =>
          let '(out, err) := hex_Decode rest in
          (byte_of_Z (Z.lor (Z.shiftl a 4) b) :: out, err)
      end
  end.

Definition hex_DecodeString (s : string) : list byte * option error :=
  hex_Decode (list_byte_of_string s).

(** [strconv.Itoa]. *)
Definition strconv_Itoa (z : Z) : string :=
  NilZero.string_of_int (Z.to_int z).

(** Go's [len] as an integer. *)
Definition len {A} (l : list A) : Z := Z.of_nat (length l).

(** [strings.Contains] on byte lists and strings. *)
Fixpoint has_prefix (p l : list byte) : bool :=
  match p, l with
  | [], _ => true
  | _ :: _, [] => false
  | a :: p', b :: l' => Byte.eqb a b && has_prefix p' l'
  end.

Fixpoint contains_bytes (l sub : list byte) : bool :=
  has_prefix sub l ||
  match l with
  | [] => false
  | _ :: l' => contains_bytes l' sub
  end.

Definition strings_Contains (s sub : string) : bool :=
  contains_bytes (list_byte_of_string s) (list_byte_of_string sub).

(** ** Notification model *)

Definition DeviceTokenItemID : Z := 1.
Definition DeviceTokenItemLength : Z := 32.
Definition PayloadItemID : Z := 2.
Definition PayloadItemMaxLength : Z := 2048.
Definition NotificationIdentifierItemID : Z := 3.
Definition NotificationIdentifierItemLength : Z := 4.
Definition ExpirationDateItemID : Z := 4.
Definition ExpirationDateItemLength : Z := 4.
Definition PriorityItemID : Z := 5.
Definition PriorityItemLength : Z := 1.
Definition SendNotificationCommandValue : Z := 2.

Section Codec.

(** Go values of type [interface{}]: the alert and the custom fields. *)
Variable any : Type.

(** The [Aps] struct. *)
Record Aps : Type := mkAps {
  Alert : any;
  Badge : Z;
  Sound : string;
  ContentAvailable : Z;
  Category : string
}.

(** The [Payload] struct; a nil [customValues] map is the empty map. *)
Record Payload : Type := mkPayload {
  PayloadAps : option Aps;
  customValues : gmap string any
}.

(** The [Notification] struct. [ExpirationDate] holds the value of
    [time.Time.Unix()], an [int64]. *)
Record Notification : Type := mkNotification {
  DeviceToken : string;
  NotificationPayload : option Payload;
  NotificationIdentifier : string;
  ExpirationDate : option Z;
  Priority : byte
}.

(** What the map [payload] of [MarshalJSON] holds under a key. *)
Inductive PayloadField : Type :=
| FieldAps (a : Aps)
| FieldCustom (v : any).

(** [json.Marshal] applied to the map built by [MarshalJSON]; the encoder
    of the Go standard library is not part of the package. *)
Variable json_Marshal : gmap string PayloadField -> Result (list byte).

Definition aps_required : error :=
  errors_New "apns/notification: 'aps' object is required".

Definition aps_reserved : error :=
  errors_New "apns/notification: 'aps' is a reserved and cannot be used for custom field".

(** One turn of [for key, value := range p.customValues]; once the loop
    has returned an error the remaining turns do nothing. *)
Definition addCustomField (key : string) (value : any)
    (acc : Result (gmap string PayloadField)) : Result (gmap string PayloadField) :=
  let! payload := acc in
  if String.eqb key "aps" then Err aps_reserved
  else Ok (<[key := FieldCustom value]> payload).

(** [Payload.MarshalJSON]. *)
Definition MarshalJSON (p : Payload) : Result (list byte) :=
  match PayloadAps p with
  | None => Err aps_required
  | Some aps =>
      let! payload :=
        map_fold addCustomField (Ok (<["aps" := FieldAps aps]> ∅)) (customValues p) in
      json_Marshal payload
  end.

(** [Payload.JSON]: [json.Marshal(p)] writes [null] for a nil pointer,
    and otherwise calls [MarshalJSON], wraps its error, and compacts its
    output, which leaves the output of [json.Marshal] as it is. *)
Definition JSON (p : option Payload) : Result (list byte) :=
  match p with
  | None => Ok (list_byte_of_string "null")
  | Some p =>
      match MarshalJSON p with
      | Ok b => Ok b
      | Err e => Err (json_MarshalerError e)
      end
  end.

Definition device_token_length_error : error :=
  errors_New ("apns/notification: Device token has to be hex encoded "
              ++ strconv_Itoa DeviceTokenItemLength ++ " bytes long binary string").

Definition payload_size_error : error :=
  errors_New ("apns/notification: Notification payload size has to be "
              ++ strconv_Itoa PayloadItemMaxLength ++ " bytes at maximum").

Definition identifier_length_error : error :=
  errors_New ("apns/notification: Notification identifier has to be a hex encoded "
              ++ strconv_Itoa NotificationIdentifierItemLength
              ++ " bytes longs binary string").

(** The three [binary.Write] calls of one item. *)
Definition write_item (id declared : Z) (content : list byte) : list byte :=
  write_uint8 id ++ write_uint16 declared ++ content.

(** [Notification.Bytes]. *)
Definition Notification_Bytes (n : Notification) : Result (list byte) :=
  let frameBuffer : list byte := [] in
  (* Device token *)
  let '(token, deviceTokenError) := hex_DecodeString (DeviceToken n) in
  match deviceTokenError with
  | Some e => Err e
  | None =>
  if len token =? DeviceTokenItemLength then
    let frameBuffer :=
      frameBuffer ++ write_item DeviceTokenItemID DeviceTokenItemLength token in
    (* Payload *)
    let! payload := JSON (NotificationPayload n) in
    if len payload >? PayloadItemMaxLength then Err payload_size_error else
    let frameBuffer :=
      frameBuffer ++ write_item PayloadItemID (len payload) payload in
    (* Notification identifier *)
    let '(identifier, identifierError) :=
      hex_DecodeString (NotificationIdentifier n) in
    match identifierError with
    | Some e => Err e
    | None =>
    if negb (len identifier =? NotificationIdentifierItemLength)
    then Err identifier_length_error else
    let frameBuffer :=
      frameBuffer ++ write_item NotificationIdentifierItemID
                                NotificationIdentifierItemLength identifier in
    (* Expiration date: the header announces 4 bytes, Unix() is an int64 *)
    let frameBuffer :=
      match ExpirationDate n with
      | Some unix =>
          frameBuffer ++ write_item ExpirationDateItemID ExpirationDateItemLength
                                    (write_int64 unix)
      | None => frameBuffer
      end in
    (* Priority *)
    let frameBuffer :=
      frameBuffer ++ write_item PriorityItemID PriorityItemLength
                                (write_uint8 (byte_to_Z (Priority n))) in
    Ok frameBuffer
    end
  else Err device_token_length_error
  end.

(** [PushNotificationCommand.Bytes]. *)
Definition PushNotificationCommand_Bytes (n : Notification) : Result (list byte) :=
  let! notificationBytes := Notification_Bytes n in
  Ok (write_uint8 SendNotificationCommandValue
      ++ write_uint32 (len notificationBytes)
      ++ notificationBytes).

End Codec.

Arguments mkAps {any}.
Arguments mkPayload {any}.
Arguments mkNotification {any}.
Arguments FieldAps {any}.
Arguments FieldCustom {any}.
Arguments Alert {any}.
Arguments Badge {any}.
Arguments Sound {any}.
Arguments ContentAvailable {any}.
Arguments Category {any}.
Arguments PayloadAps {any}.
Arguments customValues {any}.
Arguments DeviceToken {any}.
Arguments NotificationPayload {any}.
Arguments NotificationIdentifier {any}.
Arguments ExpirationDate {any}.
Arguments Priority {any}.
Arguments MarshalJSON {any}.
Arguments JSON {any}.
Arguments Notification_Bytes {any}.
Arguments PushNotificationCommand_Bytes {any}.
Arguments addCustomField {any}.

(** ** An encoder to run the codec with

    [encoding/json] restricted to payloads whose dynamic values are plain
    strings: object keys in sorted order, struct fields in declaration
    order, [omitempty] fields left out when zero. Strings are written
    between quotes as they are, which is what [encoding/json] does for
    strings without characters that JSON escapes. *)
Module PlainJSON.

Definition quote : byte := x22.

Definition str (s : string) : list byte := list_byte_of_string s.

Definition quoted (s : string) : list byte := quote :: str s ++ [quote].

(** A field [name: value] of an object. *)
Definition member (name : string) (value : list byte) : list byte :=
  quoted name ++ str ":" ++ value.

Fixpoint join (parts : list (list byte)) : list byte :=
  match parts with
  | [] => []
  | [a] => a
  | a :: rest => a ++ str "," ++ join rest
  end.

Definition object (members : list (list byte)) : list byte :=
  str "{" ++ join members ++ str "}".

(** The [Aps] struct; [alert] holds a string, hence is never a nil
    interface and is always written. *)
Definition encode_aps (a : Aps string) : list byte :=
  object
    ([member "alert" (quoted (Alert a))]
     ++ (if Badge a =? 0 then [] else [member "badge" (str (strconv_Itoa (Badge a)))])
     ++ (if String.eqb (Sound a) "" then [] else [member "sound" (quoted (Sound a))])
     ++ (if ContentAvailable a =? 0 then []
         else [member "content-available" (str (strconv_Itoa (ContentAvailable a)))])
     ++ (if String.eqb (Category a) "" then []
         else [member "category" (quoted (Category a))])).

Definition encode_field (f : PayloadField string) : list byte :=
  match f with
  | FieldAps a => encode_aps a
  | FieldCustom v => quoted v
  end.

Definition key_le (a b : string * PayloadField string) : Prop :=
  Is_true (String.leb a.1 b.1).

Global Instance key_le_dec a b : Decision (key_le a b).
Proof. unfold key_le. apply _. Defined.

Definition Marshal (payload : gmap string (PayloadField string)) : Result (list byte) :=
  Ok (object (map (fun kv => member kv.1 (encode_field kv.2))
                  (merge_sort key_le (map_to_list payload)))).

End PlainJSON.

(** ** Commands and command errors *)

(** A [CommandInterface] value: what [Identifier()] and [Bytes()] return.
    The channel behind [Errors()] is mutable and lives in the state of
    the run (see [World]). *)
Record Command : Type := mkCommand {
  Identifier : string;
  Bytes : Result (list byte)
}.

Global Instance Command_eq_dec : EqDecision Command.
Proof. solve_decision. Defined.

Definition PushNotificationCommand {any}
    (json_Marshal : gmap string (PayloadField any) -> Result (list byte))
    (n : Notification any) : Command :=
  mkCommand (NotificationIdentifier n) (PushNotificationCommand_Bytes json_Marshal n).

(** The [CommandError] struct; [None] is Go's nil. *)
Record CommandError : Type := mkCommandError {
  commandError : option error;
  command : option Command
}.

Global Instance CommandError_eq_dec : EqDecision CommandError.
Proof. solve_decision. Defined.

Definition NewCommandError (err : option error) (cmd : option Command) : CommandError :=
  mkCommandError err cmd.

(** [CommandError.Error()]: the message of an [errors.New] error, the
    empty string when there is no underlying error. The messages of the
    errors of other packages are not modelled; it is used on the errors
    this package makes with [errors.New] only. *)
Definition CommandError_Error (ce : CommandError) : string :=
  match commandError ce with
  | Some (errors_New msg) => msg
  | _ => ""
  end.

(** The map [PushNotificationErrorStatuses]. *)
Definition PushNotificationErrorStatuses : gmap Z string :=
  list_to_map
    [ (0, "No errors encountered");
      (1, "Processing error");
      (2, "Missing device token");
      (3, "Missing topic");
      (4, "Missing payload");
      (5, "Invalid token size");
      (6, "Invalid topic size");
      (7, "Invalid payload size");
      (8, "Invalid token");
      (10, "Shutdown");
      (255, "Unknown") ]%string.

(** Indexing a Go map: the zero value for a missing key. *)
Definition status_description (statusCode : Z) : string :=
  default ""%string (PushNotificationErrorStatuses !! statusCode).

Definition unrecognized_response : error :=
  errors_New "apns: Unrecognized APNS response".

(** [NewCommandErrorFromAPNSResponse]. *)
Definition NewCommandErrorFromAPNSResponse (data : list byte) (cmd : option Command)
    : CommandError :=
  let err :=
    if negb (len data =? 6) then Some unrecognized_response
    else
      let statusCode := byte_to_Z (nth 1 data x00) in
      let notificationIdentifier := hex_EncodeToString (drop 2 data) in
      let apnsErrorDescription := status_description statusCode in
      if negb (String.eqb apnsErrorDescription "")
      then Some (errors_New ("apns: " ++ apnsErrorDescription
                             ++ " for notification #" ++ notificationIdentifier))
      else None in
  NewCommandError err cmd.

(** ** Feedback service *)

Definition TimestampItemLength : Z := 4.
Definition DeviceTokenLengthItemLength : Z := 2.

(** [FeedbackDeviceEntry]; [Timestamp] is [time.Unix(sec, 0)], kept as
    the seconds since the epoch. *)
Record FeedbackDeviceEntry : Type := mkFeedbackDeviceEntry {
  Timestamp : Z;
  FeedbackDeviceToken : string
}.

Record FeedbackResponse : Type := mkFeedbackResponse {
  Devices : list FeedbackDeviceEntry
}.

Definition unrecognized_entry : error :=
  errors_New "apns: Unrecognized Feedback Service entry".

(** [binary.Read(buf, binary.BigEndian, &timestamp)] for a [uint32]. *)
Definition binary_Read_uint32 (buf : list byte) : Result Z :=
  match buf with
  | [] => Err io_EOF
  | _ => if len buf <? 4 then Err io_ErrUnexpectedEOF
         else Ok (BigEndian_uint (take 4 buf))
  end.

(** [FeedbackResponse.addEntryFromBytes]: the response after the call and
    the error returned. *)
Definition addEntryFromBytes (fs : FeedbackResponse) (data : list byte)
    : FeedbackResponse * option error :=
  if negb (len data =? TimestampItemLength + DeviceTokenLengthItemLength
                       + DeviceTokenItemLength)
  then (fs, Some unrecognized_entry)
  else
    match binary_Read_uint32 (take 4 data) with
    | Err e => (fs, Some e)
    | Ok timestamp =>
        let entry :=
          mkFeedbackDeviceEntry timestamp (hex_EncodeToString (drop 6 data)) in
        (mkFeedbackResponse (Devices fs ++ [entry]), None)
    end.

(** One call of [conn.Read(buf)]: the bytes that arrived and the error. *)
Record ReadResult : Type := mkRead {
  read_data : list byte;
  read_err : option error
}.

(** [Read] copies what arrived over the front of [buf], at most
    [len(buf)] bytes, and leaves the rest of [buf] as it was. *)
Definition conn_Read (buf : list byte) (r : ReadResult)
    : list byte * Z * option error :=
  let data := take (length buf) (read_data r) in
  (data ++ drop (length data) buf, len data, read_err r).

(** The [for] loop of [CheckFeedbackService] over the reads the peer
    answers with; a connection whose reads are used up is at EOF. The
    loop itself returns at a read that ends in EOF or in a timeout only:
    see [reads_end] for the caller's view of a loop that goes on. *)
Fixpoint feedback_loop (reads : list ReadResult) (responseBytes : list byte)
    (rsp : FeedbackResponse) : FeedbackResponse * option error :=
  match reads with
  | [] => (rsp, None)
  | r :: reads' =>
      let '(responseBytes, read, err) := conn_Read responseBytes r in
      let rsp :=
        if read >? 0 then fst (addEntryFromBytes rsp responseBytes) else rsp in
      match err with
      | Some _ =>
          if is_EOF err then (rsp, None)
          else if is_Timeout err then (rsp, None)
          else feedback_loop reads' responseBytes rsp
      | None => feedback_loop reads' responseBytes rsp
      end
  end.

(** [Client.CheckFeedbackService], after the connection parameters:
    [dial] and [handshake] are the errors of [Dial] and [Handshake]. *)
Definition CheckFeedbackService (dial handshake : option error)
    (reads : list ReadResult) : option FeedbackResponse * option error :=
  match dial with
  | Some e => (None, Some e)
  | None =>
      match handshake with
      | Some e => (None, Some e)
      | None =>
          let '(rsp, err) :=
            feedback_loop reads (repeat x00 38) (mkFeedbackResponse []) in
          (Some rsp, err)
      end
  end.

(** ** Go channels

    The state of a channel as the Go runtime keeps it: the capacity, the
    buffered values (oldest first), the number of goroutines parked in a
    receive, and whether it was closed. [ch_received] records what the
    receivers were handed, [None] standing for the zero value a receive
    yields on a closed channel. *)
Record chan (A : Type) : Type := mkChan {
  ch_cap : nat;
  ch_buf : list A;
  ch_recvq : nat;
  ch_closed : bool;
  ch_received : list (option A)
}.
Arguments mkChan {A}.
Arguments ch_cap {A}.
Arguments ch_buf {A}.
Arguments ch_recvq {A}.
Arguments ch_closed {A}.
Arguments ch_received {A}.

Global Instance chan_eq_dec {A} `{EqDecision A} : EqDecision (chan A).
Proof. solve_decision. Defined.

(** [make(chan A, cap)]. *)
Definition make_chan {A} (cap : nat) : chan A := mkChan cap [] 0 false [].

(** A receiver parks only on an empty, open channel, and the buffer
    never exceeds the capacity. *)
Definition chan_wf {A} (c : chan A) : Prop :=
  (length (ch_buf c) <= ch_cap c)%nat /\
  (ch_recvq c <> 0%nat -> ch_buf c = [] /\ ch_closed c = false).

Inductive SendResult (A : Type) : Type :=
| Sent (c : chan A)     (* the send went through *)
| WouldBlock            (* no receiver and no room *)
| SendOnClosed.         (* panic: send on closed channel *)
Arguments Sent {A} c.
Arguments WouldBlock {A}.
Arguments SendOnClosed {A}.

(** A send that is ready to proceed: a parked receiver takes the value
    at once, otherwise the value goes to the buffer if there is room. *)
Definition chan_send {A} (c : chan A) (v : A) : SendResult A :=
  if ch_closed c then SendOnClosed
  else if negb (ch_recvq c =? 0)%nat then
    Sent (mkChan (ch_cap c) (ch_buf c) (Nat.pred (ch_recvq c)) false
                 (ch_received c ++ [Some v]))
  else if (length (ch_buf c) <? ch_cap c)%nat then
    Sent (mkChan (ch_cap c) (ch_buf c ++ [v]) 0 false (ch_received c))
  else WouldBlock.

(** [select { case v := <-c: ...; default: ... }]. *)
Definition chan_try_recv {A} (c : chan A) : option (option A * chan A) :=
  match ch_buf c with
  | v :: rest =>
      Some (Some v, mkChan (ch_cap c) rest (ch_recvq c) (ch_closed c)
                           (ch_received c ++ [Some v]))
  | [] =>
      if ch_closed c
      then Some (None, mkChan (ch_cap c) [] (ch_recvq c) true (ch_received c ++ [None]))
      else None
  end.

(** [close(c)]: a panic ([None]) on a closed channel; the parked
    receivers wake up with the zero value. *)
Definition chan_close {A} (c : chan A) : option (chan A) :=
  if ch_closed c then None
  else Some (mkChan (ch_cap c) (ch_buf c) 0 true
                    (ch_received c ++ repeat None (ch_recvq c))).

(** The errors among the values the receivers of a channel were handed. *)
Definition received_values {A} (c : chan A) : list A :=
  omap id (ch_received c).

(** ** The worker and the client *)

(** What one command touches: the client's command queue and its
    registry of ready workers, the signals of the worker that runs the
    command, the channel behind [cmd.Errors()], and the connection. *)
Record World : Type := mkWorld {
  commandsQueue : chan Command;      (* c.commandsQueue *)
  workerQueue : chan nat;            (* c.workerQueue: ids of the ready workers *)
  pauseSignal : chan bool;           (* w.pauseSignal, capacity 1 *)
  readySignal : chan bool;           (* w.readySignal, capacity 1 *)
  errorSignal : list CommandError;   (* values sent on w.errorSignal *)
  cmdErrors : chan CommandError;     (* cmd.Errors(), unbuffered *)
  written : list (list byte);        (* arguments of w.tlsConn.Write *)
  reconnects : nat;                  (* reconnect goroutines started *)
  closeCalls : nat                   (* calls of close(cmd.Errors()) *)
}.

Definition with_commandsQueue (q : chan Command) (w : World) : World :=
  mkWorld q (workerQueue w) (pauseSignal w) (readySignal w) (errorSignal w)
          (cmdErrors w) (written w) (reconnects w) (closeCalls w).

Definition with_workerQueue (q : chan nat) (w : World) : World :=
  mkWorld (commandsQueue w) q (pauseSignal w) (readySignal w) (errorSignal w)
          (cmdErrors w) (written w) (reconnects w) (closeCalls w).

Definition with_pauseSignal (c : chan bool) (w : World) : World :=
  mkWorld (commandsQueue w) (workerQueue w) c (readySignal w) (errorSignal w)
          (cmdErrors w) (written w) (reconnects w) (closeCalls w).

Definition with_readySignal (c : chan bool) (w : World) : World :=
  mkWorld (commandsQueue w) (workerQueue w) (pauseSignal w) c (errorSignal w)
          (cmdErrors w) (written w) (reconnects w) (closeCalls w).

Definition with_errorSignal (es : list CommandError) (w : World) : World :=
  mkWorld (commandsQueue w) (workerQueue w) (pauseSignal w) (readySignal w) es
          (cmdErrors w) (written w) (reconnects w) (closeCalls w).

Definition with_cmdErrors (c : chan CommandError) (w : World) : World :=
  mkWorld (commandsQueue w) (workerQueue w) (pauseSignal w) (readySignal w)
          (errorSignal w) c (written w) (reconnects w) (closeCalls w).

Definition with_written (l : list (list byte)) (w : World) : World :=
  mkWorld (commandsQueue w) (workerQueue w) (pauseSignal w) (readySignal w)
          (errorSignal w) (cmdErrors w) l (reconnects w) (closeCalls w).

Definition with_reconnects (n : nat) (w : World) : World :=
  mkWorld (commandsQueue w) (workerQueue w) (pauseSignal w) (readySignal w)
          (errorSignal w) (cmdErrors w) (written w) n (closeCalls w).

Definition with_closeCalls (n : nat) (w : World) : World :=
  mkWorld (commandsQueue w) (workerQueue w) (pauseSignal w) (readySignal w)
          (errorSignal w) (cmdErrors w) (written w) (reconnects w) n.

(** How a goroutine leaves a piece of code. *)
Inductive Outcome (A : Type) : Type :=
| Done (a : A) (w : World)
| Panic                   (* a run-time panic *)
| Blocked (w : World).    (* parked on a channel operation, in state [w] *)
Arguments Done {A} a w.
Arguments Panic {A}.
Arguments Blocked {A} w.

Definition M (A : Type) : Type := World -> Outcome A.

Definition retM {A} (a : A) : M A := fun w => Done a w.

Definition bindM {A B} (m : M A) (k : A -> M B) : M B :=
  fun w =>
    match m w with
    | Done a w' => k a w'
    | Panic => Panic
    | Blocked w' => Blocked w'
    end.

Notation "'do' x '<-' m ';' k" := (bindM m (fun x => k))
  (at level 10, x name, m at level 100, k at level 200).
Notation "m ';;;' k" := (bindM m (fun _ => k))
  (at level 100, k at level 200, right associativity).

Definition when (b : bool) (m : M unit) : M unit :=
  if b then m else retM tt.

(** [w.errorSignal <- commandError]: the channel is unbuffered and the
    goroutine started in [worker.init] receives from it in a loop, so the
    send goes through; what that goroutine received is recorded. *)
Definition send_errorSignal (ce : CommandError) : M unit :=
  fun w => Done tt (with_errorSignal (errorSignal w ++ [ce]) w).

(** [select { case cmd.Errors() <- commandError: default: }]. *)
Definition offer_error (ce : CommandError) : M unit :=
  fun w =>
    match chan_send (cmdErrors w) ce with
    | Sent c => Done tt (with_cmdErrors c w)
    | WouldBlock => Done tt w
    | SendOnClosed => Panic
    end.

(** [w.pauseSignal <- true]. *)
Definition send_pauseSignal : M unit :=
  fun w =>
    match chan_send (pauseSignal w) true with
    | Sent c => Done tt (with_pauseSignal c w)
    | WouldBlock => Blocked w
    | SendOnClosed => Panic
    end.

(** [w.readySignal <- true]. *)
Definition send_readySignal : M unit :=
  fun w =>
    match chan_send (readySignal w) true with
    | Sent c => Done tt (with_readySignal c w)
    | WouldBlock => Blocked w
    | SendOnClosed => Panic
    end.

(** [select { case <-w.pauseSignal: ...; default: ... }]: whether a pause
    signal was taken. *)
Definition take_pauseSignal : M bool :=
  fun w =>
    match chan_try_recv (pauseSignal w) with
    | Some (_, c) => Done true (with_pauseSignal c w)
    | None => Done false w
    end.

(** [close(cmd.Errors())]. *)
Definition close_errors : M unit :=
  fun w =>
    match chan_close (cmdErrors w) with
    | Some c => Done tt (with_closeCalls (S (closeCalls w)) (with_cmdErrors c w))
    | None => Panic
    end.

(** [w.tlsConn.Write(cmdBytes)]. *)
Definition conn_Write (cmdBytes : list byte) : M unit :=
  fun w => Done tt (with_written (written w ++ [cmdBytes]) w).

(** [worker.reconnect]: signal the pause, then start the goroutine that
    closes the connection and dials again. *)
Definition reconnect : M unit :=
  send_pauseSignal ;;;
  fun w => Done tt (with_reconnects (S (reconnects w)) w).

(** What the peer does during one [executeCommand]: the error of
    [Write], and the outcome of the [Read] that follows. *)
Record Peer : Type := mkPeer {
  write_err : option error;
  response : ReadResult
}.

Definition write_closed_by_peer : error :=
  errors_New "apns/worker: Error writing data. Connection appears to be closed by peer".

Definition read_closed_by_peer : error :=
  errors_New "apns/worker: Connection was closed by peer after reading data".

(** [worker.executeCommand]. *)
Definition executeCommand (peer : Peer) (cmd : Command) : M (option error) :=
  let responseBytes := repeat x00 6 in
  match Bytes cmd with
  | Err err => retM (Some err)
  | Ok cmdBytes =>
      (* write data to APNS *)
      conn_Write cmdBytes ;;;
      match write_err peer with
      | Some err =>
          if is_EOF (Some err)
          then reconnect ;;; retM (Some write_closed_by_peer)
          else retM (Some err)
      | None =>
          (* read response from APNS *)
          let '(responseBytes, read, err) := conn_Read responseBytes (response peer) in
          let err := if is_Timeout err then None else err in
          when (read >? 0)
            (let commandError :=
               NewCommandErrorFromAPNSResponse responseBytes (Some cmd) in
             send_errorSignal commandError ;;;
             offer_error commandError) ;;;
          if (read >? 0) || is_EOF err then
            reconnect ;;;
            retM (if is_EOF err then Some read_closed_by_peer else err)
          else retM err
      end
  end.

(** One turn of [worker.executionLoopRoutine] from the receipt of
    [command] on [w.workQueue] to the end of that [case]. *)
Definition executionLoopTurn (peer : Peer) (command : Command) : M unit :=
  do err <- executeCommand peer command ;
  match err with
  | Some e =>
      let commandError := NewCommandError (Some e) (Some command) in
      send_errorSignal commandError ;;;
      offer_error commandError
  | None => retM tt
  end ;;;
  do paused <- take_pauseSignal ;
  when (negb paused) send_readySignal ;;;
  close_errors.

Definition queue_full : error :=
  errors_New "apns: Queue is full, dismissing command".

(** [Client.ExecuteCommand]: the error returned, nil on success. *)
Definition ExecuteCommand (cmd : Command) : M (option CommandError) :=
  fun w =>
    match chan_send (commandsQueue w) cmd with
    | Sent q => Done None (with_commandsQueue q w)
    | WouldBlock =>
        (close_errors ;;;
         retM (Some (NewCommandError (Some queue_full) (Some cmd)))) w
    | SendOnClosed => Panic
    end.

(** Goroutines that start [<-cmd.Errors()] on the open channel, as the
    caller of [ExecuteCommand] does after it returned: they park. *)
Definition park_listeners (k : nat) : M unit :=
  fun w =>
    let c := cmdErrors w in
    Done tt (with_cmdErrors
               (mkChan (ch_cap c) (ch_buf c) (ch_recvq c + k) (ch_closed c)
                       (ch_received c)) w).

(** [workerWorkQueue := <-c.workerQueue] in the goroutine that the
    dispatch loop starts for a command: it takes the oldest ready worker,
    and parks while the registry is empty. The send [workerWorkQueue <-
    cmd] that follows goes through, the worker having registered just
    before it receives from its work queue. *)
Definition await_worker : M nat :=
  fun w =>
    let q := workerQueue w in
    match ch_buf q with
    | id :: rest =>
        Done id (with_workerQueue
                   (mkChan (ch_cap q) rest (ch_recvq q) (ch_closed q)
                           (ch_received q ++ [Some id])) w)
    | [] => Blocked w
    end.

(** A command from submission to the end of its handling: a rejected
    command goes no further; an accepted one is taken from the queue by
    the dispatch loop, waits for a ready worker, and is run by it.
    [listeners] receivers start waiting on the command's channel in
    between. *)
Definition submitAndRun (peer : Peer) (listeners : nat) (cmd : Command)
    : M (option CommandError) :=
  do rejected <- ExecuteCommand cmd ;
  match rejected with
  | Some e => retM (Some e)
  | None =>
      park_listeners listeners ;;;
      do worker <- await_worker ;
      executionLoopTurn peer cmd ;;;
      retM None
  end.

(** An empty, open signal channel of capacity 1, as [newWorker] makes
    [w.pauseSignal] and [w.readySignal]; only the worker's loop receives
    from them, and it is not parked there while it runs a command. *)
Definition signal_idle (c : chan bool) : Prop :=
  ch_cap c = 1%nat /\ ch_buf c = [] /\ ch_recvq c = 0%nat /\ ch_closed c = false.

(** The channel of a command nobody has finished yet: unbuffered, as
    [NewPushNotificationCommand] makes it, and open. *)
Definition errors_open (c : chan CommandError) : Prop :=
  ch_cap c = 0%nat /\ ch_buf c = [] /\ ch_closed c = false.

(** The state in which a worker takes a command from its work queue: it
    consumed its ready signal, and no pause is pending. *)
Definition turn_ready (w : World) : Prop :=
  signal_idle (pauseSignal w) /\ signal_idle (readySignal w)
  /\ errors_open (cmdErrors w).

(** A client with [workers] ready workers registered (numbered from 1),
    a freshly made command on whose channel [listeners] goroutines wait,
    and the worker that will run it, which has taken its ready signal. *)
Definition fresh_world (queue : chan Command) (workers listeners : nat) : World :=
  mkWorld queue (mkChan workers (seq 1 workers) 0 false [])
          (make_chan 1) (make_chan 1) []
          (mkChan 0 [] listeners false []) [] 0 0.

(** ** One turn of the worker, summed up

    What [executionLoopTurn] comes to, case by case, for comparison with the
    monadic definition above. *)

(** The errors that one execution raises, in order: the encode error; or
    the write error; or the decoded response when bytes were read,
    followed by the read error unless it was a timeout. *)
Definition raised_errors (peer : Peer) (cmd : Command) : list CommandError :=
  match Bytes cmd with
  | Err e => [NewCommandError (Some e) (Some cmd)]
  | Ok _ =>
      match write_err peer with
      | Some e =>
          [NewCommandError
             (Some (if is_EOF (Some e) then write_closed_by_peer else e))
             (Some cmd)]
      | None =>
          let '(responseBytes, read, err) :=
            conn_Read (repeat x00 6) (response peer) in
          (if read >? 0
           then [NewCommandErrorFromAPNSResponse responseBytes (Some cmd)]
           else [])
          ++ (if is_EOF err
              then [NewCommandError (Some read_closed_by_peer) (Some cmd)]
              else if is_Timeout err then []
              else match err with
                   | Some e => [NewCommandError (Some e) (Some cmd)]
                   | None => []
                   end)
      end
  end.

(** Whether the execution calls [reconnect]: the write met EOF, or the
    read returned bytes or EOF. *)
Definition reconnect_scheduled (peer : Peer) (cmd : Command) : bool :=
  match Bytes cmd with
  | Err _ => false
  | Ok _ =>
      match write_err peer with
      | Some e => is_EOF (Some e)
      | None =>
          let '(_, read, err) := conn_Read (repeat x00 6) (response peer) in
          (read >? 0) || is_EOF err
      end
  end.

(** The world after the turn: the raised errors went to the error
    signal; as many of them as receivers were waiting went to the
    command's channel, which is closed; the worker is paused when a
    reconnect was scheduled and has signalled ready otherwise. *)
Definition after_turn (peer : Peer) (cmd : Command) (w : World) : World :=
  let raised := raised_errors peer cmd in
  let paused := reconnect_scheduled peer cmd in
  let c := cmdErrors w in
  let delivered := take (ch_recvq c) raised in
  mkWorld (commandsQueue w) (workerQueue w)
    (if paused
     then mkChan 1 [] 0 false (ch_received (pauseSignal w) ++ [Some true])
     else pauseSignal w)
    (if paused then readySignal w
     else mkChan 1 [true] 0 false (ch_received (readySignal w)))
    (errorSignal w ++ raised)
    (mkChan 0 [] 0 true
       (ch_received c ++ map Some delivered
        ++ repeat None (ch_recvq c - length delivered)))
    (written w ++ match Bytes cmd with Ok b => [b] | Err _ => [] end)
    (if paused then S (reconnects w) else reconnects w)
    (S (closeCalls w)).

(** ** The frame as the specification words it

    A second reading of the wire format, from the specification and not
    from the encoder: a command byte 2, a four-byte big-endian length [L],
    then [L] bytes made of items, each a one-byte id, a two-byte
    big-endian length and that many bytes. *)

Record Item : Type := mkItem {
  item_id : Z;
  item_declared : Z;
  item_content : list byte
}.

Fixpoint read_items (fuel : nat) (bs : list byte) : option (list Item) :=
  match bs with
  | [] => Some []
  | id :: hi :: lo :: rest =>
      let n := BigEndian_uint [hi; lo] in
      match fuel with
      | O => None
      | S fuel' =>
          if n <=? len rest then
            option_map (cons (mkItem (byte_to_Z id) n (take (Z.to_nat n) rest)))
                       (read_items fuel' (drop (Z.to_nat n) rest))
          else None
      end
  | _ => None
  end.

(** Every item takes at least three bytes, so [length bs] turns suffice. *)
Definition items_of (bs : list byte) : option (list Item) :=
  read_items (length bs) bs.

Definition item_size (it : Item) : Z := 3 + item_declared it.

Definition items_size (items : list Item) : Z :=
  fold_right Z.add 0 (map item_size items).

Definition read_frame (frame : list byte) : option (Z * list Item) :=
  match frame with
  | cmd :: l3 :: l2 :: l1 :: l0 :: body =>
      let L := BigEndian_uint [l3; l2; l1; l0] in
      if (byte_to_Z cmd =? 2) && (L =? len body)
      then option_map (pair L) (items_of body)
      else None
  | _ => None
  end.

(** Item 4: a length field equal to 4 and exactly 4 bytes holding the
    seconds since the epoch as an unsigned big-endian number. *)
Definition expiration_item_ok (unix : Z) (it : Item) : bool :=
  (item_id it =? ExpirationDateItemID)
  && (item_declared it =? 4)
  && (len (item_content it) =? 4)
  && (BigEndian_uint (item_content it) =? unix mod 2 ^ 32).

Definition frame_conforms {any} (n : Notification any) (frame : list byte) : bool :=
  match read_frame frame with
  | Some (L, items) =>
      (items_size items =? L)
      && match ExpirationDate n with
         | None => true
         | Some unix => existsb (expiration_item_ok unix) items
         end
  | None => false
  end.

(** ** Sample notifications *)

Definition zeros64 : string :=
  "0000000000000000000000000000000000000000000000000000000000000000".

Definition hello_payload : Payload string :=
  mkPayload (Some (mkAps "hi" 0 "" 0 "")) {["weather" := "sunny"]}.

(** A valid notification without expiration date. *)
Definition hello : Notification string :=
  mkNotification zeros64 (Some hello_payload) "aabbccdd" None x0a.

(** The same notification, expiring at 2023-11-14 22:13:20 UTC. *)
Definition expiring : Notification string :=
  mkNotification zeros64 (Some hello_payload) "aabbccdd" (Some 1700000000) x0a.

(** The serialized payload of both, 40 bytes, and their first three
    items as the encoder writes them. *)
Definition hello_json : list byte :=
  PlainJSON.object
    [ PlainJSON.member "aps"
        (PlainJSON.object [PlainJSON.member "alert" (PlainJSON.quoted "hi")]);
      PlainJSON.member "weather" (PlainJSON.quoted "sunny") ].

Definition hello_items : list byte :=
  write_item 1 32 (repeat x00 32) ++ write_item 2 40 hello_json
  ++ write_item 3 4 [xaa; xbb; xcc; xdd].

Definition frame_of (n : Notification string) : list byte :=
  match PushNotificationCommand_Bytes PlainJSON.Marshal n with
  | Ok frame => frame
  | Err _ => []
  end.

(** A 38-byte feedback record: timestamp 1, token length 32, token ff..ff. *)
Definition feedback_record : list byte :=
  [x00; x00; x00; x01; x00; x20] ++ repeat xff 32.

(** The same notification with a device token of 62 hexadecimal digits. *)
Definition short_token : Notification string :=
  mkNotification (String.substring 0 62 zeros64) (Some hello_payload)
                 "aabbccdd" None x0a.

(** A read that stops after 20 bytes of a record. *)
Definition short_read : ReadResult := mkRead (repeat x01 20) None.

(** An error response whose command byte is 0 and whose status is 8. *)
Definition odd_response : list byte := [x00; x08; xaa; xbb; xcc; xdd].

(** The same notification with a custom field named [aps]. *)
Definition reserved_field : Notification string :=
  mkNotification zeros64
    (Some (mkPayload (Some (mkAps "hi" 0 "" 0 "")) {["aps" := "sunny"]}))
    "aabbccdd" None x0a.

(** ** Why an encoding fails *)

(** The device token does not decode, or not to 32 bytes. *)
Definition token_rejected {any} (n : Notification any) : bool :=
  match hex_DecodeString (DeviceToken n) with
  | (_, Some _) => true
  | (token, None) => negb (len token =? DeviceTokenItemLength)
  end.

(** The identifier does not decode, or not to 4 bytes. *)
Definition identifier_rejected {any} (n : Notification any) : bool :=
  match hex_DecodeString (NotificationIdentifier n) with
  | (_, Some _) => true
  | (identifier, None) => negb (len identifier =? NotificationIdentifierItemLength)
  end.

(** The payload was serialized and is longer than 2048 bytes. *)
Definition payload_too_large {any}
    (json_Marshal : gmap string (PayloadField any) -> Result (list byte))
    (n : Notification any) : bool :=
  match JSON json_Marshal (NotificationPayload n) with
  | Ok payload => len payload >? PayloadItemMaxLength
  | Err _ => false
  end.

(** The payload object is there and its [aps] object is nil. *)
Definition aps_missing {any} (n : Notification any) : bool :=
  match NotificationPayload n with
  | Some p => negb (bool_decide (is_Some (PayloadAps p)))
  | None => false
  end.

(** A custom field of the payload is named [aps]. *)
Definition reserved_custom_field {any} (n : Notification any) : bool :=
  match NotificationPayload n with
  | Some p => bool_decide (is_Some (customValues p !! "aps"))
  | None => false
  end.

(** The map that [MarshalJSON] builds when it gets to [json.Marshal]. *)
Definition payload_map {any} (aps : Aps any) (custom : gmap string any)
    : gmap string (PayloadField any) :=
  (FieldCustom <$> custom) ∪ {["aps" := FieldAps aps]}.

(** [json.Marshal] is reached and returns an error. *)
Definition marshal_fails {any}
    (json_Marshal : gmap string (PayloadField any) -> Result (list byte))
    (n : Notification any) : bool :=
  match NotificationPayload n with
  | Some p =>
      match PayloadAps p with
      | Some aps =>
          negb (reserved_custom_field n)
          && is_Err (json_Marshal (payload_map aps (customValues p)))
      | None => false
      end
  | None => false
  end.

(** There is no [aps] object: no payload, or a payload without one. *)
Definition aps_absent {any} (n : Notification any) : bool :=
  match NotificationPayload n with
  | Some p => negb (bool_decide (is_Some (PayloadAps p)))
  | None => true
  end.

(** The commands of the sample notifications. *)
Definition hello_command : Command := PushNotificationCommand PlainJSON.Marshal hello.

Definition short_token_command : Command :=
  PushNotificationCommand PlainJSON.Marshal short_token.

(** The peer stays silent until the read deadline. *)
Definition peer_silent : Peer := mkPeer None (mkRead [] (Some net_Timeout)).

(** The peer closes the connection without an error frame. *)
Definition peer_closes : Peer := mkPeer None (mkRead [] (Some io_EOF)).

(** The peer answers 08 08 aa bb cc dd: invalid token. *)
Definition peer_invalid_token : Peer :=
  mkPeer None (mkRead [x08; x08; xaa; xbb; xcc; xdd] None).

(** The peer answers 08 08 aa bb cc dd and closes the connection: the
    read returns the six bytes together with EOF. *)
Definition peer_rejects_and_closes : Peer :=
  mkPeer None (mkRead [x08; x08; xaa; xbb; xcc; xdd] (Some io_EOF)).

(** An unbuffered command queue on which the dispatcher is waiting. *)
Definition rendezvous_queue : chan Command := mkChan 0 [] 1 false [].

(** A client with two ready workers and room in its queue; a goroutine
    waits on the command's channel. *)
Definition world_listening : World := fresh_world (make_chan 1) 2 1.

(** The same client; nobody waits on the command's channel. *)
Definition world_unheard : World := fresh_world (make_chan 1) 2 0.

(** A client whose queue of capacity 1 holds a command. *)
Definition world_full : World :=
  fresh_world (mkChan 1 [hello_command] 0 false []) 2 0.

(** A client with a queue of capacity 0 and its dispatcher waiting. *)
Definition world_rendezvous : World := fresh_world rendezvous_queue 2 0.

(** A client none of whose workers is running: configured with none, or
    all of them failed to connect; nothing is ever sent on the registry. *)
Definition world_without_worker : World := fresh_world (make_chan 1) 0 0.

(** ** Statements under test

    Sentences of the specification that the code does not satisfy as
    they stand, written out so that they can be refuted. *)

(** The error response as the specification words it: a first byte other
    than 8 is an unrecognized response; otherwise the status comes from
    the table and carries the identifier, and a status outside the table
    is an unrecognized response. *)
Definition error_response_as_specified (data : list byte) : bool :=
  let ce := NewCommandErrorFromAPNSResponse data None in
  if negb (byte_to_Z (nth 0 data x00) =? 8)
  then bool_decide (commandError ce = Some unrecognized_response)
  else
    match PushNotificationErrorStatuses !! byte_to_Z (nth 1 data x00) with
    | Some desc =>
        bool_decide
          (commandError ce =
           Some (errors_New ("apns: " ++ desc ++ " for notification #"
                             ++ hex_EncodeToString (drop 2 data))))
    | None => bool_decide (commandError ce = Some unrecognized_response)
    end.

(** Encoding fails exactly when the token or the identifier is
    rejected, the payload is too large, or the [aps] object is absent. *)
Definition encoding_fails_as_specified {any}
    (json_Marshal : gmap string (PayloadField any) -> Result (list byte))
    (n : Notification any) : bool :=
  Bool.eqb (is_Err (Notification_Bytes json_Marshal n))
           (token_rejected n || identifier_rejected n
            || payload_too_large json_Marshal n || aps_absent n).

(** Every error raised for the command reaches the receivers of its
    channel, each exactly once. *)
Definition errors_always_delivered (peer : Peer) (cmd : Command) (w : World) : bool :=
  match executionLoopTurn peer cmd w with
  | Done _ w' =>
      bool_decide (received_values (cmdErrors w')
                   = received_values (cmdErrors w)
                     ++ drop (length (errorSignal w)) (errorSignal w'))
  | _ => false
  end.

(** After EOF with zero bytes a reconnect is scheduled and no error
    reaches the command's channel. *)
Definition eof_is_silent (cmd : Command) (w : World) : bool :=
  match executionLoopTurn peer_closes cmd w with
  | Done _ w' =>
      (reconnects w' =? S (reconnects w))%nat
      && bool_decide (received_values (cmdErrors w') = received_values (cmdErrors w))
  | _ => false
  end.

(** The queue took the command: it is the last of the buffer, or the
    last value handed to a receiver. *)
Definition queue_took (q q' : chan Command) (cmd : Command) : bool :=
  bool_decide (ch_buf q' = ch_buf q ++ [cmd])
  || bool_decide (ch_received q' = ch_received q ++ [Some cmd]).

(** Submission as the specification words it: with fewer commands than
    the capacity the command is enqueued, the call succeeds and the
    command's channel stays open; at capacity the channel is closed, the
    queue-full error is returned and the queue is left as it was. *)
Definition submit_as_specified (cmd : Command) (w : World) : bool :=
  match ExecuteCommand cmd w with
  | Done err w' =>
      if (length (ch_buf (commandsQueue w)) <? ch_cap (commandsQueue w))%nat
      then bool_decide (err = None)
           && queue_took (commandsQueue w) (commandsQueue w') cmd
           && negb (ch_closed (cmdErrors w'))
      else bool_decide (err = Some (NewCommandError (Some queue_full) (Some cmd)))
           && ch_closed (cmdErrors w')
           && bool_decide (commandsQueue w' = commandsQueue w)
  | _ => false
  end.

(** The channel of a submitted command is closed exactly once. *)
Definition closed_exactly_once
    (peer : Peer) (listeners : nat) (cmd : Command) (w : World) : bool :=
  match submitAndRun peer listeners cmd w with
  | Done _ w' => (closeCalls w' =? S (closeCalls w))%nat && ch_closed (cmdErrors w')
  | _ => false
  end.

(** ** Constructors and deserialization *)

(** [Payload.AddCustomField]: a nil map is made first, then the key is
    set, replacing an earlier value. *)
Definition AddCustomField {any} (key : string) (value : any) (p : Payload any)
    : Payload any :=
  mkPayload (PayloadAps p) (<[key := value]> (customValues p)).

Section Constructors.

Context {any : Type}.

(** The nil value of [interface{}]. *)
Variable nil : any.

(** [NewAps]: a zero [Aps]. *)
Definition NewAps : Aps any := mkAps nil 0 "" 0 "".

(** [NewPayload]. *)
Definition NewPayload : Payload any := mkPayload (Some NewAps) ∅.

(** [NewNotification]; [random] is what [rand.Read(randomID)] did: the
    bytes it put into the 4-byte slice, or its error, in which case the
    identifier stays empty. *)
Definition NewNotification (random : Result (list byte)) : Notification any :=
  let randomID := repeat x00 4 in
  mkNotification "" (Some NewPayload)
    match random with
    | Ok bytes =>
        let data := take (length randomID) bytes in
        hex_EncodeToString (data ++ drop (length data) randomID)
    | Err _ => ""
    end
    None x00.

(** The anonymous struct that [UnmarshalJSON] decodes into: the payload
    with its [aps] and [customValues] members, and the promoted fields
    of the notification. *)
Record fakePayload : Type := mkFakePayload {
  fakeAps : option (Aps any);
  CustomValues : gmap string any
}.

Record fakeNotification : Type := mkFakeNotification {
  fakePayloadOf : option fakePayload;   (* nil after a JSON null *)
  fakeDeviceToken : string;
  fakeNotificationIdentifier : string;
  fakeExpirationDate : option Z;
  fakePriority : byte
}.

(** [_, alertIsString := alert.(string)]. *)
Variable alertIsString : any -> bool.

(** [mapstructure.Decode(alert, &alertDictionary)]: the alert dictionary
    it filled, as the [*Alert] stored back into the [interface{}]. *)
Variable mapstructure_Decode : any -> Result any.

Definition invalid_alert : error :=
  errors_New "apns/notification: Invalid alert dictionary format".

(** [Notification.UnmarshalJSON], from the result of [json.Unmarshal] on:
    the notification after the call and the error returned. [None] is
    the nil-pointer panic on [fakeNotification.Payload.CustomValues]. *)
Definition UnmarshalJSON (decoded : Result fakeNotification) (n : Notification any)
    : option (Notification any * option error) :=
  match decoded with
  | Err err => Some (n, Some err)
  | Ok fake =>
      let identifier :=
        (* set provided notification identifier otherwise keep generated one *)
        if String.eqb (fakeNotificationIdentifier fake) ""
        then NotificationIdentifier n
        else fakeNotificationIdentifier fake in
      match fakePayloadOf fake with
      | None => None
      | Some payload =>
          let with_aps (aps : option (Aps any)) :=
            mkNotification (fakeDeviceToken fake)
              (Some (mkPayload aps (CustomValues payload)))
              identifier (fakeExpirationDate fake) (fakePriority fake) in
          match fakeAps payload with
          | None => Some (with_aps (PayloadAps NewPayload), None)
          | Some aps =>
              if alertIsString (Alert aps) then Some (with_aps (Some aps), None)
              else
                match mapstructure_Decode (Alert aps) with
                | Err _ => Some (with_aps (PayloadAps NewPayload), Some invalid_alert)
                | Ok alertDictionary =>
                    Some (with_aps
                            (Some (mkAps alertDictionary (Badge aps) (Sound aps)
                                         (ContentAvailable aps) (Category aps))),
                          None)
                end
          end
      end
  end.

End Constructors.

(** ** Receivers that arrive during a turn *)

(** [executionLoopTurn] with goroutines that start [<-command.Errors()]
    while the turn runs: [during] of them after the offer in
    [executeCommand] and before the offer in the loop, [after] of them
    after that offer and before the close. The receivers that waited
    before the first offer are in the state the turn starts from. These
    are the moments that matter: the turn touches the channel at the two
    offers and at the close only. *)
Definition executionLoopTurn_arrivals (during after : nat)
    (peer : Peer) (command : Command) : M unit :=
  do err <- executeCommand peer command ;
  park_listeners during ;;;
  match err with
  | Some e =>
      let commandError := NewCommandError (Some e) (Some command) in
      send_errorSignal commandError ;;;
      offer_error commandError
  | None => retM tt
  end ;;;
  park_listeners after ;;;
  do paused <- take_pauseSignal ;
  when (negb paused) send_readySignal ;;;
  close_errors.

(** The error raised inside [executeCommand]: the decoded response, when
    bytes were read. *)
Definition response_errors (peer : Peer) (cmd : Command) : list CommandError :=
  match Bytes cmd with
  | Err _ => []
  | Ok _ =>
      match write_err peer with
      | Some _ => []
      | None =>
          let '(responseBytes, read, _) :=
            conn_Read (repeat x00 6) (response peer) in
          if read >? 0
          then [NewCommandErrorFromAPNSResponse responseBytes (Some cmd)]
          else []
      end
  end.

(** The error raised in the loop: the one [executeCommand] returned. *)
Definition returned_errors (peer : Peer) (cmd : Command) : list CommandError :=
  match Bytes cmd with
  | Err e => [NewCommandError (Some e) (Some cmd)]
  | Ok _ =>
      match write_err peer with
      | Some e =>
          [NewCommandError
             (Some (if is_EOF (Some e) then write_closed_by_peer else e))
             (Some cmd)]
      | None =>
          let '(_, _, err) := conn_Read (repeat x00 6) (response peer) in
          if is_EOF err
          then [NewCommandError (Some read_closed_by_peer) (Some cmd)]
          else if is_Timeout err then []
          else match err with
               | Some e => [NewCommandError (Some e) (Some cmd)]
               | None => []
               end
      end
  end.

(** What the receivers of the command's channel are handed, [waiting] of
    them being there before the first offer and [during] more before the
    second: an offer goes through when a receiver is waiting at that
    moment, and each receiver takes one value. *)
Definition delivered_errors (waiting during : nat) (peer : Peer) (cmd : Command)
    : list CommandError :=
  let first := take waiting (response_errors peer cmd) in
  first ++ take (waiting - length first + during) (returned_errors peer cmd).

(** ** The worker between two commands *)

(** The goroutine that [worker.reconnect] starts, after
    [w.disconnect()]; [connect] is the error of [w.connect()]. It tells
    whether it went on to send the quit signal, on which the execution
    loop returns. *)
Definition reconnect_routine (connect : option error) : M bool :=
  match connect with
  | Some err =>
      send_errorSignal (NewCommandError (Some err) None) ;;;
      retM true
  | None =>
      send_readySignal ;;;
      retM false
  end.

(** [case <-w.readySignal: c.workerQueue <- w.workQueue] in the
    execution loop of the worker [id]: the loop waits while there is no
    ready signal, and while the registry has no room and no taker. *)
Definition register_worker (id : nat) : M unit :=
  fun w =>
    match chan_try_recv (readySignal w) with
    | Some (Some _, c) =>
        match chan_send (workerQueue w) id with
        | Sent q => Done tt (with_workerQueue q (with_readySignal c w))
        | WouldBlock => Blocked (with_readySignal c w)
        | SendOnClosed => Panic
        end
    | _ => Blocked w
    end.

(** ** The HTTP handlers *)

Definition StatusAccepted : Z := 202.
Definition StatusMethodNotAllowed : Z := 405.
Definition StatusConflict : Z := 409.
Definition StatusServiceUnavailable : Z := 503.

Definition missing_data : error := errors_New "Notification data is missing".

(** [cmd.errorsChannel = make(chan CommandErrorInterface)] in
    [NewPushNotificationCommand]. *)
Definition make_errorsChannel : M unit :=
  fun w => Done tt (with_cmdErrors (make_chan 0) w).

(** A receive from [cmd.Errors()] that finds the channel closed or a
    value ready. *)
Definition receive_now : M (option CommandError) :=
  fun w =>
    match chan_try_recv (cmdErrors w) with
    | Some (v, c) => Done v (with_cmdErrors c w)
    | None => Blocked w
    end.

Definition received_so_far : M nat :=
  fun w => Done (length (ch_received (cmdErrors w))) w.

(** The receiver that parked when [seen] values had been handed out
    wakes up with the next one. *)
Definition receive_handed (seen : nat) : M (option CommandError) :=
  fun w =>
    match ch_received (cmdErrors w) !! seen with
    | Some v => Done v w
    | None => Blocked w
    end.

(** When the handler comes to its receive [<-cmd.Errors()], relative to
    what the worker does with the command's channel: the two offers and
    the close of the turn. *)
Inductive Arrival : Type :=
| BeforeOffers     (* before the offer in [executeCommand] *)
| BetweenOffers    (* after it, before the offer in the loop *)
| BeforeClose      (* after the offers, before the close *)
| AfterClose.      (* after the close *)

(** [commandError := <-cmd.Errors()] in the handler, with what the
    dispatch loop and the worker do to the command until the handler has
    its value. A closed channel yields nil at once. On an open channel
    the handler waits for an offer or for the close, from the moment
    [arrival] on. *)
Definition await_command_error (peer : Peer) (cmd : Command) (arrival : Arrival)
    : M (option CommandError) :=
  fun w =>
    if ch_closed (cmdErrors w) then receive_now w
    else
      (do seen <- received_so_far ;
       park_listeners (match arrival with BeforeOffers => 1 | _ => 0 end) ;;;
       do worker <- await_worker ;
       executionLoopTurn_arrivals
         (match arrival with BetweenOffers => 1 | _ => 0 end)
         (match arrival with BeforeClose => 1 | _ => 0 end)
         peer cmd ;;;
       match arrival with
       | AfterClose => receive_now
       | _ => receive_handed seen
       end) w.



Section Handlers.

Context {any : Type}.
Variable json_Marshal : gmap string (PayloadField any) -> Result (list byte).
Variable nil : any.
Variable alertIsString : any -> bool.
Variable mapstructure_Decode : any -> Result any.

(** What a handler passes to [finishResponse] as [responseData], before
    it is serialized: nothing, the error whose message is reported, the
    notification, or the feedback response. *)
Inductive ResponseData : Type :=
| NoData
| ErrorData (err : error)
| CommandErrorData (err : CommandError)
| NotificationData (n : Notification any)
| FeedbackData (rsp : option FeedbackResponse).

(** The handler of [NewRawNotificationHTTPHandlerFunc]: the status and
    the data passed to [finishResponse]. [random] is what [rand.Read]
    did in [NewNotification], and [decoded] what [encoding/json] made of
    the request body when [bodyDecoder.Decode(notification)] ran
    [Notification.UnmarshalJSON]: the error of the decoder (io.EOF on an
    empty body) or of [json.Unmarshal], or the decoded fields. The
    nil-pointer panic of [UnmarshalJSON] is a panic of the handler. *)
Definition RawNotificationHandler (method : string)
    (random : Result (list byte)) (decoded : Result (fakeNotification (any := any)))
    (peer : Peer) (arrival : Arrival)
    : M (Z * ResponseData) :=
  (* check method *)
  if negb (String.eqb method "POST") then retM (StatusMethodNotAllowed, NoData)
  else
    (* read body data *)
    match UnmarshalJSON nil alertIsString mapstructure_Decode decoded
            (NewNotification nil random) with
    | None => fun _ => Panic
    | Some (_, Some bodyError) =>
        retM (StatusConflict,
              ErrorData (if is_EOF (Some bodyError) then missing_data
                         else bodyError))
    | Some (notification, None) =>
        let cmd := PushNotificationCommand json_Marshal notification in
        make_errorsChannel ;;;
        do err <- ExecuteCommand cmd ;
        do commandError <- await_command_error peer cmd arrival ;
        match err with
        | Some e => retM (StatusServiceUnavailable, CommandErrorData e)
        | None =>
            match commandError with
            | Some ce => retM (StatusConflict, CommandErrorData ce)
            | None => retM (StatusAccepted, NotificationData notification)
            end
        end
    end.


End Handlers.

Arguments NoData {any}.
Arguments ErrorData {any} err.
Arguments CommandErrorData {any} err.
Arguments NotificationData {any} n.
Arguments FeedbackData {any} rsp.

(** The body of a request for the notification [hello], decoded. *)
Definition hello_body : fakeNotification (any := string) :=
  mkFakeNotification
    (Some (mkFakePayload (Some (mkAps "hi" 0 "" 0 "")) {["weather" := "sunny"]}))
    zeros64 "aabbccdd" None x0a.

(** * Properties *)

(** ** Bytes *)

Lemma byte_to_Z_range (b : byte) : 0 <= byte_to_Z b < 256.
Proof.
  unfold byte_to_Z. pose proof (Byte.to_N_bounded b). lia.
Qed.

Lemma byte_of_to_Z (b : byte) : byte_of_Z (byte_to_Z b) = b.
Proof. destruct b; reflexivity. Qed.

Lemma byte_to_of_Z (z : Z) : byte_to_Z (byte_of_Z z) = z mod 256.
Proof.
  unfold byte_of_Z, byte_to_Z.
  change 255 with (Z.ones 8). rewrite Z.land_ones by lia.
  change (2 ^ 8) with 256.
  pose proof (Z.mod_pos_bound z 256 ltac:(lia)) as Hr.
  destruct (Byte.of_N (Z.to_N (z mod 256))) as [b|] eqn:E.
  - apply Byte.to_of_N in E. rewrite E. lia.
  - apply Byte.of_N_None_iff in E. lia.
Qed.

Lemma len_app {A} (l k : list A) : len (l ++ k) = len l + len k.
Proof. unfold len. rewrite length_app. lia. Qed.

Lemma len_nonneg {A} (l : list A) : 0 <= len l.
Proof. unfold len. lia. Qed.

Lemma length_BigEndian_put (w : nat) (v : Z) : length (BigEndian_put w v) = w.
Proof. induction w as [|w IH]; simpl; [reflexivity | now rewrite IH]. Qed.

(** One step of [BigEndian_uint] is [acc * 256 + b]. *)
Lemma lor_shiftl_byte (acc : Z) (b : byte) :
  Z.lor (Z.shiftl acc 8) (byte_to_Z b) = acc * 256 + byte_to_Z b.
Proof.
  pose proof (byte_to_Z_range b) as Hb.
  rewrite <- Z.add_lor_land, Z.shiftl_mul_pow2 by lia.
  change (2 ^ 8) with 256.
  enough (Z.land (acc * 256) (byte_to_Z b) = 0) by lia.
  apply Z.bits_inj'. intros n Hn.
  rewrite Z.land_spec, Z.bits_0.
  destruct (Z.lt_ge_cases n 8) as [Hlow|Hhigh].
  - change 256 with (2 ^ 8). rewrite <- Z.shiftl_mul_pow2 by lia.
    now rewrite Z.shiftl_spec_low.
  - rewrite <- (Z.mod_small (byte_to_Z b) (2 ^ 8)) by (change (2 ^ 8) with 256; lia).
    rewrite Z.mod_pow2_bits_high by lia. apply andb_false_r.
Qed.

Lemma BigEndian_uint_acc (bs : list byte) (acc : Z) :
  fold_left (fun acc b => Z.lor (Z.shiftl acc 8) (byte_to_Z b)) bs acc
  = acc * 256 ^ len bs + BigEndian_uint bs.
Proof.
  unfold BigEndian_uint. revert acc.
  induction bs as [|b bs IH]; intros acc.
  - simpl. change (len []) with 0. lia.
  - simpl. rewrite IH, (IH (Z.lor _ _)), !lor_shiftl_byte.
    replace (len (b :: bs)) with (1 + len bs) by (unfold len; simpl length; lia).
    rewrite Z.pow_add_r by (unfold len; lia). lia.
Qed.

Lemma BigEndian_uint_cons (b : byte) (bs : list byte) :
  BigEndian_uint (b :: bs) = byte_to_Z b * 256 ^ len bs + BigEndian_uint bs.
Proof.
  unfold BigEndian_uint at 1. simpl fold_left.
  rewrite BigEndian_uint_acc, lor_shiftl_byte. lia.
Qed.

(** Reading back what [binary.Write] wrote gives the value truncated to
    the width. *)
Lemma BigEndian_uint_put (w : nat) (v : Z) :
  BigEndian_uint (BigEndian_put w v) = v mod 256 ^ Z.of_nat w.
Proof.
  induction w as [|w IH].
  - simpl. now rewrite Z.mod_1_r.
  - cbn [BigEndian_put]. rewrite BigEndian_uint_cons, IH, byte_to_of_Z.
    unfold len. rewrite length_BigEndian_put.
    rewrite Z.shiftr_div_pow2 by lia.
    replace (2 ^ (8 * Z.of_nat w)) with (256 ^ Z.of_nat w)
      by (change 256 with (2 ^ 8); rewrite <- Z.pow_mul_r by lia; reflexivity).
    rewrite Nat2Z.inj_succ, Z.pow_succ_r by lia.
    rewrite (Z.mul_comm 256), Z.rem_mul_r by lia. lia.
Qed.

Lemma BigEndian_uint_put_small (w : nat) (v : Z) :
  0 <= v < 256 ^ Z.of_nat w ->
  BigEndian_uint (BigEndian_put w v) = v.
Proof. intros H. rewrite BigEndian_uint_put. now apply Z.mod_small. Qed.

(** ** Feedback tuples *)

(** C10. The feedback-tuple decoder accepts every input of exactly 38
    bytes and appends an entry whose timestamp is the big-endian uint32
    of bytes 0..4 (seconds since the epoch) and whose device token is the
    hex encoding of bytes 6..38; the two bytes 4..6 are never inspected:
    replacing them by any two bytes [tl] gives the same result. *)
Theorem feedback_entry_ignores_length_field
    (fs : FeedbackResponse) (data tl : list byte) :
  length data = 38%nat ->
  length tl = 2%nat ->
  let entry :=
    mkFeedbackDeviceEntry (BigEndian_uint (take 4 data))
                          (hex_EncodeToString (drop 6 data)) in
  addEntryFromBytes fs data = (mkFeedbackResponse (Devices fs ++ [entry]), None)
  /\ addEntryFromBytes fs (take 4 data ++ tl ++ drop 6 data)
     = addEntryFromBytes fs data.
Proof.
  intros Hdata Htl entry.
  assert (Hdecode : forall d : list byte, length d = 38%nat ->
            addEntryFromBytes fs d =
            (mkFeedbackResponse
               (Devices fs ++ [mkFeedbackDeviceEntry (BigEndian_uint (take 4 d))
                                 (hex_EncodeToString (drop 6 d))]), None)).
  { intros d Hd. unfold addEntryFromBytes, len. rewrite Hd. simpl negb. cbv iota.
    do 4 (destruct d as [|? d]; [discriminate Hd|]). reflexivity. }
  split; [now apply Hdecode|].
  rewrite (Hdecode data Hdata).
  do 6 (destruct data as [|? data]; [discriminate Hdata|]).
  do 2 (destruct tl as [|? tl]; [discriminate Htl|]).
  destruct tl; [|discriminate Htl].
  rewrite Hdecode; [reflexivity|]. simpl in *. rewrite drop_0. lia.
Qed.

(** The record with timestamp 1 gives the same entry when its length
    field 00 20 is replaced by 12 34. *)
Lemma feedback_entry_ignores_length_field_witness :
  length feedback_record = 38%nat /\ length [x12; x34] = 2%nat /\
  addEntryFromBytes (mkFeedbackResponse [])
                    (take 4 feedback_record ++ [x12; x34] ++ drop 6 feedback_record)
  = addEntryFromBytes (mkFeedbackResponse []) feedback_record.
Proof.
  split; [reflexivity|]. split; [reflexivity|].
  apply (feedback_entry_ignores_length_field (mkFeedbackResponse [])
           feedback_record [x12; x34]); reflexivity.
Defined.

(** Once the connection stands, the loop returns no error whatever the
    peer sends: the result of [addEntryFromBytes] is dropped. *)
Lemma feedback_loop_returns_no_error
    (reads : list ReadResult) (responseBytes : list byte) (rsp : FeedbackResponse) :
  (feedback_loop reads responseBytes rsp).2 = None.
Proof.
  revert responseBytes rsp.
  induction reads as [|r reads IH]; intros responseBytes rsp; [reflexivity|].
  cbn [feedback_loop]. unfold conn_Read.
  destruct (read_err r) as [e|]; [|apply IH].
  destruct (is_EOF (Some e)); [reflexivity|].
  destruct (is_Timeout (Some e)); [reflexivity|apply IH].
Qed.

(** C5. A short record is not reported and does not abort the scan.
    Once the connection stands, [CheckFeedbackService] returns a nil
    error whatever the peer sends. A read that returns 20 bytes of a
    record makes the loop hand the whole 38-byte buffer to
    [addEntryFromBytes], the remaining 18 bytes being those of the
    previous record; its result is dropped and the loop goes on: the
    call returns two entries and no error. [addEntryFromBytes] does
    reject the 20 bytes when it is given them alone. *)
Theorem short_feedback_read_is_decoded :
  (forall reads : list ReadResult, (CheckFeedbackService None None reads).2 = None)
  /\ CheckFeedbackService None None [mkRead feedback_record None; short_read]
     = (Some (mkFeedbackResponse
                [ mkFeedbackDeviceEntry 1 (hex_EncodeToString (repeat xff 32));
                  mkFeedbackDeviceEntry 16843009
                    (hex_EncodeToString (repeat x01 14 ++ repeat xff 18)) ]),
        None)
  /\ addEntryFromBytes (mkFeedbackResponse []) (read_data short_read)
     = (mkFeedbackResponse [], Some unrecognized_entry).
Proof.
  split; [|split; vm_compute; reflexivity].
  intros reads. unfold CheckFeedbackService.
  pose proof (feedback_loop_returns_no_error reads (repeat x00 38)
                (mkFeedbackResponse [])) as Hloop.
  destruct (feedback_loop reads (repeat x00 38) (mkFeedbackResponse []))
    as [rsp err]. exact Hloop.
Qed.

(** ** Error responses *)

Lemma status_in_table (code : Z) (desc : string) :
  PushNotificationErrorStatuses !! code = Some desc ->
  (code, desc) ∈ [ (0, "No errors encountered"); (1, "Processing error");
                   (2, "Missing device token"); (3, "Missing topic");
                   (4, "Missing payload"); (5, "Invalid token size");
                   (6, "Invalid topic size"); (7, "Invalid payload size");
                   (8, "Invalid token"); (10, "Shutdown"); (255, "Unknown") ]%string.
Proof. intros H. now apply elem_of_list_to_map_2 in H. Qed.

Lemma status_description_nonempty (code : Z) (desc : string) :
  PushNotificationErrorStatuses !! code = Some desc ->
  String.eqb desc "" = false.
Proof.
  intros H%status_in_table.
  repeat (apply elem_of_cons in H as [H|H]; [injection H as -> ->; reflexivity|]).
  now apply elem_of_nil in H.
Qed.

(** The statuses of the table are 0 to 8, 10 and 255. *)
Lemma status_table_domain (code : Z) :
  is_Some (PushNotificationErrorStatuses !! code) <->
  code ∈ [0; 1; 2; 3; 4; 5; 6; 7; 8; 10; 255].
Proof.
  split.
  - intros [desc H%status_in_table].
    repeat (apply elem_of_cons in H as [H|H];
            [injection H as -> ->; set_solver|]).
    now apply elem_of_nil in H.
  - intros H.
    repeat (apply elem_of_cons in H as [->|H]; [eexists; reflexivity|]).
    now apply elem_of_nil in H.
Qed.

Lemma wrong_length_is_unrecognized (data : list byte) (cmd : option Command) :
  len data <> 6 ->
  commandError (NewCommandErrorFromAPNSResponse data cmd) = Some unrecognized_response.
Proof.
  intros H. unfold NewCommandErrorFromAPNSResponse.
  apply Z.eqb_neq in H. now rewrite H.
Qed.

(** A status outside the table leaves the underlying error nil. *)
Lemma unknown_status_has_no_error (data : list byte) (cmd : option Command) :
  len data = 6 ->
  PushNotificationErrorStatuses !! byte_to_Z (nth 1 data x00) = None ->
  commandError (NewCommandErrorFromAPNSResponse data cmd) = None.
Proof.
  intros Hlen Hnone. unfold NewCommandErrorFromAPNSResponse, status_description.
  now rewrite Hlen, Hnone.
Qed.

(** C2, as the code has it. For every 6-byte error response whose status
    byte is in the table {0,...,8,10,255}, the error reads
    "apns: <description> for notification #<hex of bytes 2..6>"; the
    command byte is not inspected, any first byte gives the same error. *)
Theorem error_response_decoding
    (data : list byte) (cmd : option Command) (desc : string) :
  len data = 6 ->
  PushNotificationErrorStatuses !! byte_to_Z (nth 1 data x00) = Some desc ->
  commandError (NewCommandErrorFromAPNSResponse data cmd)
  = Some (errors_New ("apns: " ++ desc ++ " for notification #"
                      ++ hex_EncodeToString (drop 2 data)))
  /\ forall b : byte,
       NewCommandErrorFromAPNSResponse (b :: drop 1 data) cmd
       = NewCommandErrorFromAPNSResponse data cmd.
Proof.
  intros Hlen Hdesc. split.
  - unfold NewCommandErrorFromAPNSResponse, status_description.
    rewrite Hlen, Hdesc. simpl.
    now rewrite (status_description_nonempty _ _ Hdesc).
  - intros b. destruct data as [|b0 rest]; [discriminate Hlen|].
    unfold NewCommandErrorFromAPNSResponse, len. simpl. now rewrite drop_0.
Qed.

(** The response 00 08 aa bb cc dd, whose status 8 is in the table. *)
Lemma error_response_decoding_witness :
  len odd_response = 6 /\
  PushNotificationErrorStatuses !! byte_to_Z (nth 1 odd_response x00)
  = Some "Invalid token"%string /\
  commandError (NewCommandErrorFromAPNSResponse odd_response None)
  = Some (errors_New "apns: Invalid token for notification #aabbccdd").
Proof.
  split; [reflexivity|]. split; [reflexivity|].
  apply (error_response_decoding odd_response None "Invalid token");
    reflexivity.
Defined.

(** C2, refuted as stated: the response 00 08 aa bb cc dd does not start
    with the command byte 8, yet it is decoded as "Invalid token" and
    not reported as unrecognized. *)
Lemma error_response_command_byte_unchecked :
  len odd_response = 6
  /\ commandError (NewCommandErrorFromAPNSResponse odd_response None)
     = Some (errors_New "apns: Invalid token for notification #aabbccdd")
  /\ error_response_as_specified odd_response = false.
Proof. repeat split; vm_compute; reflexivity. Qed.

(** ** Payload serialization *)

Section PayloadFacts.

Context {any : Type}.
Variable json_Marshal : gmap string (PayloadField any) -> Result (list byte).

(** The loop over the custom fields does not depend on the order in
    which the map is walked: it fails when some key is [aps], and
    otherwise adds every custom field to the map. *)
Lemma custom_fields_loop (base : gmap string (PayloadField any))
    (custom : gmap string any) :
  map_fold addCustomField (Ok base) custom =
  if bool_decide (is_Some (custom !! "aps")) then Err aps_reserved
  else Ok ((FieldCustom <$> custom) ∪ base).
Proof.
  revert custom.
  refine (map_fold_weak_ind
            (fun r m => r = if bool_decide (is_Some (m !! "aps"))
                            then Err aps_reserved
                            else Ok ((FieldCustom <$> m) ∪ base))
            addCustomField (Ok base) _ _).
  - rewrite lookup_empty, fmap_empty, (left_id_L ∅ (∪)).
    rewrite bool_decide_eq_false_2; [reflexivity|]. now apply is_Some_None.
  - intros key value m r Hfresh ->.
    unfold addCustomField. destruct (String.eqb_spec key "aps") as [->|Hne].
    + rewrite lookup_insert_eq.
      rewrite (bool_decide_eq_false_2 (is_Some (m !! "aps")))
        by (rewrite Hfresh; apply is_Some_None).
      rewrite bool_decide_eq_true_2 by eauto. reflexivity.
    + rewrite lookup_insert_ne by done.
      destruct (bool_decide (is_Some (m !! "aps"))); simpl; [reflexivity|].
      now rewrite fmap_insert, insert_union_l.
Qed.

Lemma MarshalJSON_unfold (p : Payload any) :
  MarshalJSON json_Marshal p =
  match PayloadAps p with
  | None => Err aps_required
  | Some aps =>
      if bool_decide (is_Some (customValues p !! "aps")) then Err aps_reserved
      else json_Marshal (payload_map aps (customValues p))
  end.
Proof.
  unfold MarshalJSON, payload_map. destruct (PayloadAps p) as [aps|]; [|reflexivity].
  rewrite custom_fields_loop, insert_empty.
  now destruct (bool_decide (is_Some (customValues p !! "aps"))).
Qed.

(** When [Payload.JSON] fails. *)
Lemma JSON_fails (n : Notification any) :
  is_Err (JSON json_Marshal (NotificationPayload n)) =
  aps_missing n || reserved_custom_field n || marshal_fails json_Marshal n.
Proof.
  unfold marshal_fails, reserved_custom_field, aps_missing, JSON.
  destruct (NotificationPayload n) as [p|]; [|reflexivity].
  rewrite MarshalJSON_unfold.
  destruct (PayloadAps p) as [aps|]; [|reflexivity].
  rewrite (bool_decide_eq_true_2 (is_Some (Some aps))) by eauto.
  destruct (bool_decide (is_Some (customValues p !! "aps"))); [reflexivity|].
  now destruct (json_Marshal (payload_map aps (customValues p))).
Qed.

(** C6, as the code has it. Encoding a notification fails exactly when:
    the device token does not hex-decode or not to 32 bytes; the payload
    is there without its aps object; a custom field is named aps;
    json.Marshal fails on the payload; the serialized payload is longer
    than 2048 bytes (2048 bytes encode, 2049 do not); or the identifier
    does not hex-decode or not to 4 bytes. Otherwise it succeeds; a
    notification whose payload pointer is nil encodes the payload null. *)
Theorem encoding_fails_exactly_when (n : Notification any) :
  is_Err (Notification_Bytes json_Marshal n) =
  token_rejected n || aps_missing n || reserved_custom_field n
  || marshal_fails json_Marshal n || payload_too_large json_Marshal n
  || identifier_rejected n.
Proof.
  rewrite <- !orb_assoc.
  rewrite (orb_assoc (aps_missing n)), (orb_assoc (aps_missing n || _)).
  rewrite <- JSON_fails.
  unfold Notification_Bytes, token_rejected, identifier_rejected, payload_too_large.
  destruct (hex_DecodeString (DeviceToken n)) as [token [e|]]; [reflexivity|].
  destruct (len token =? DeviceTokenItemLength); [|reflexivity].
  destruct (JSON json_Marshal (NotificationPayload n)) as [payload|e];
    [|reflexivity].
  unfold bind. simpl negb. simpl orb.
  destruct (len payload >? PayloadItemMaxLength); [reflexivity|].
  destruct (hex_DecodeString (NotificationIdentifier n)) as [identifier [e|]];
    [reflexivity|].
  now destruct (len identifier =? NotificationIdentifierItemLength).
Qed.

End PayloadFacts.

(** C6, refuted as stated: a notification with a valid token, a valid
    identifier and an aps object, whose custom field is named aps, is
    rejected by [MarshalJSON] although none of the four listed reasons
    holds. *)
Lemma reserved_custom_field_rejected :
  Notification_Bytes PlainJSON.Marshal reserved_field
  = Err (json_MarshalerError aps_reserved)
  /\ token_rejected reserved_field = false
  /\ identifier_rejected reserved_field = false
  /\ payload_too_large PlainJSON.Marshal reserved_field = false
  /\ aps_absent reserved_field = false
  /\ encoding_fails_as_specified PlainJSON.Marshal reserved_field = false.
Proof. repeat split; vm_compute; reflexivity. Qed.

(** A token that decodes to a wrong number of bytes is rejected with
    one and the same message, whatever that number is. *)
Lemma token_length_error_is_fixed {any : Type}
    (json_Marshal : gmap string (PayloadField any) -> Result (list byte))
    (n : Notification any) (token : list byte) :
  hex_DecodeString (DeviceToken n) = (token, None) ->
  len token <> 32 ->
  Notification_Bytes json_Marshal n = Err device_token_length_error.
Proof.
  intros Hdecode Hlen. unfold Notification_Bytes, DeviceTokenItemLength.
  rewrite Hdecode. apply Z.eqb_neq in Hlen. now rewrite Hlen.
Qed.

(** C9. A device token of 62 hexadecimal digits decodes to 31 bytes and
    is rejected, but the message names the required length only:
    "... has to be hex encoded 32 bytes long binary string"; it contains
    neither "length 31 bytes" nor the number 31. A token of 64 digits
    encodes. *)
Theorem short_token_message_lacks_length :
  len (hex_DecodeString (DeviceToken short_token)).1 = 31
  /\ Notification_Bytes PlainJSON.Marshal short_token
     = Err (errors_New
              "apns/notification: Device token has to be hex encoded 32 bytes long binary string")
  /\ strings_Contains
       "apns/notification: Device token has to be hex encoded 32 bytes long binary string"
       "length 31 bytes" = false
  /\ strings_Contains
       "apns/notification: Device token has to be hex encoded 32 bytes long binary string"
       "31" = false
  /\ is_Ok (Notification_Bytes PlainJSON.Marshal hello) = true.
Proof. repeat split; vm_compute; reflexivity. Qed.

(** ** Frames *)

(** More fuel than bytes changes nothing. *)
Lemma read_items_fuel (f1 f2 : nat) (bs : list byte) :
  (length bs <= f1)%nat -> (length bs <= f2)%nat ->
  read_items f1 bs = read_items f2 bs.
Proof.
  revert f2 bs. induction f1 as [|f1 IH]; intros f2 bs H1 H2.
  - destruct bs; [now destruct f2 | simpl in H1; lia].
  - destruct bs as [|id [|hi [|lo rest]]]; [now destruct f2..|].
    destruct f2 as [|f2]; [simpl in H2; lia|].
    cbn [read_items].
    destruct (BigEndian_uint [hi; lo] <=? len rest); [|reflexivity].
    f_equal. apply IH; rewrite length_drop; simpl in *; lia.
Qed.

Lemma read_items_step (fuel : nat) (id hi lo : byte) (rest : list byte) :
  read_items (S fuel) (id :: hi :: lo :: rest) =
  if BigEndian_uint [hi; lo] <=? len rest then
    option_map
      (cons (mkItem (byte_to_Z id) (BigEndian_uint [hi; lo])
                    (take (Z.to_nat (BigEndian_uint [hi; lo])) rest)))
      (read_items fuel (drop (Z.to_nat (BigEndian_uint [hi; lo])) rest))
  else None.
Proof. reflexivity. Qed.

(** An item written by the encoder with the length it announces is read
    back as it was written. *)
Lemma items_of_write_item (id declared : Z) (content rest : list byte) :
  0 <= id < 256 -> 0 <= declared < 65536 -> len content = declared ->
  items_of (write_item id declared content ++ rest)
  = option_map (cons (mkItem id declared content)) (items_of rest).
Proof.
  intros Hid Hdecl Hlen.
  pose proof (BigEndian_uint_put_small 2 declared ltac:(simpl; lia)) as Hd.
  pose proof (length_BigEndian_put 2 declared) as Hl.
  unfold items_of, write_item, write_uint8, write_uint16.
  destruct (BigEndian_put 2 declared) as [|hi [|lo [|? ?]]]; try discriminate Hl.
  cbn [BigEndian_put app length]. rewrite read_items_step, Hd.
  change (8 * Z.of_nat 0) with 0. rewrite Z.shiftr_0_r.
  rewrite byte_to_of_Z, (Z.mod_small id) by lia.
  assert (Hn : Z.to_nat declared = length content) by (unfold len in Hlen; lia).
  rewrite len_app, Hlen, Hn, take_app_length, drop_app_length.
  destruct (declared <=? declared + len rest) eqn:E;
    [|apply Z.leb_gt in E; pose proof (len_nonneg rest); lia].
  f_equal. apply read_items_fuel; rewrite ?length_app; lia.
Qed.

Lemma read_frame_header (L : Z) (body : list byte) :
  read_frame ([x02] ++ write_uint32 L ++ body) =
  if BigEndian_uint (write_uint32 L) =? len body
  then option_map (pair (BigEndian_uint (write_uint32 L))) (items_of body)
  else None.
Proof.
  pose proof (length_BigEndian_put 4 L) as Hl. unfold write_uint32.
  destruct (BigEndian_put 4 L) as [|l3 [|l2 [|l1 [|l0 [|? ?]]]]];
    try discriminate Hl.
  reflexivity.
Qed.

Section FrameFacts.

Context {any : Type}.
Variable json_Marshal : gmap string (PayloadField any) -> Result (list byte).

(** What [Notification.Bytes] returns when it succeeds. *)
Lemma Notification_Bytes_Ok (n : Notification any) (body : list byte) :
  Notification_Bytes json_Marshal n = Ok body ->
  exists token payload identifier,
    len token = 32 /\ len payload <= 2048 /\ len identifier = 4 /\
    JSON json_Marshal (NotificationPayload n) = Ok payload /\
    body = write_item 1 32 token ++ write_item 2 (len payload) payload
           ++ write_item 3 4 identifier
           ++ match ExpirationDate n with
              | Some unix => write_item 4 4 (write_int64 unix)
              | None => []
              end
           ++ write_item 5 1 (write_uint8 (byte_to_Z (Priority n))).
Proof.
  unfold Notification_Bytes.
  destruct (hex_DecodeString (DeviceToken n)) as [token [e|]]; [discriminate|].
  destruct (len token =? DeviceTokenItemLength) eqn:Htoken; [|discriminate].
  destruct (JSON json_Marshal (NotificationPayload n)) as [payload|e];
    [|discriminate].
  unfold bind.
  destruct (len payload >? PayloadItemMaxLength) eqn:Hpayload; [discriminate|].
  destruct (hex_DecodeString (NotificationIdentifier n)) as [identifier [e|]];
    [discriminate|].
  destruct (len identifier =? NotificationIdentifierItemLength) eqn:Hid;
    [|discriminate].
  simpl negb. cbv iota. intros [= <-].
  exists token, payload, identifier.
  apply Z.eqb_eq in Htoken, Hid. rewrite Z.gtb_ltb in Hpayload.
  apply Z.ltb_ge in Hpayload.
  repeat split; try assumption.
  destruct (ExpirationDate n);
    unfold write_item, write_uint8, write_uint16;
    repeat (cbn [BigEndian_put app]; rewrite <- ?app_assoc); reflexivity.
Qed.

(** Every frame starts with the command byte 2 and the length of what
    follows, which is less than [2^32]. *)
Lemma frame_header (n : Notification any) (frame : list byte) :
  PushNotificationCommand_Bytes json_Marshal n = Ok frame ->
  exists body,
    Notification_Bytes json_Marshal n = Ok body /\
    frame = [x02] ++ write_uint32 (len body) ++ body /\
    BigEndian_uint (write_uint32 (len body)) = len body.
Proof.
  unfold PushNotificationCommand_Bytes.
  destruct (Notification_Bytes json_Marshal n) as [body|e] eqn:Hbody;
    [|discriminate].
  intros [= <-]. exists body. repeat split.
  apply (BigEndian_uint_put_small 4).
  apply Notification_Bytes_Ok in Hbody
    as (token & payload & identifier & Ht & Hp & Hi & _ & ->).
  pose proof (len_nonneg payload).
  destruct (ExpirationDate n);
    unfold write_item, write_uint8, write_uint16, write_int64;
    rewrite ?len_app; unfold len in *; rewrite ?length_BigEndian_put;
    simpl; lia.
Qed.

(** Without an expiration date the frame is as the specification
    describes it: the items read back and their sizes add up to the
    frame length. *)
Lemma frame_without_expiration_conforms (n : Notification any) (frame : list byte) :
  ExpirationDate n = None ->
  PushNotificationCommand_Bytes json_Marshal n = Ok frame ->
  frame_conforms n frame = true.
Proof.
  intros Hexp Hframe.
  destruct (frame_header n frame Hframe) as (body & Hbody & -> & HL).
  apply Notification_Bytes_Ok in Hbody
    as (token & payload & identifier & Ht & Hp & Hi & _ & Hitems).
  rewrite Hexp in Hitems. unfold frame_conforms. rewrite Hexp.
  rewrite read_frame_header, HL, Z.eqb_refl.
  pose proof (len_nonneg payload).
  pose proof (byte_to_Z_range (Priority n)).
  assert (Hitems' : items_of body =
            Some [mkItem 1 32 token; mkItem 2 (len payload) payload;
                  mkItem 3 4 identifier;
                  mkItem 5 1 (write_uint8 (byte_to_Z (Priority n)))]).
  { rewrite Hitems. rewrite !items_of_write_item by (reflexivity || lia).
    rewrite app_nil_l.
    rewrite <- (app_nil_r (write_item 5 _ _)).
    rewrite items_of_write_item by (reflexivity || lia). reflexivity. }
  rewrite Hitems'. simpl option_map. cbv iota beta.
  rewrite andb_true_r. apply Z.eqb_eq.
  rewrite Hitems. unfold items_size, item_size, write_item, write_uint8, write_uint16.
  rewrite !len_app. unfold len in *. rewrite ?length_BigEndian_put.
  simpl. lia.
Qed.

End FrameFacts.

(** With an expiration date the encoder writes the item header 04 00 04
    and then the eight bytes of the [int64] that [Unix()] returns. *)
Lemma expiration_item_content {any : Type}
    (json_Marshal : gmap string (PayloadField any) -> Result (list byte))
    (n : Notification any) (unix : Z) (body : list byte) :
  ExpirationDate n = Some unix ->
  Notification_Bytes json_Marshal n = Ok body ->
  exists before,
    body = before ++ [x04; x00; x04] ++ write_int64 unix
           ++ write_item 5 1 (write_uint8 (byte_to_Z (Priority n)))
    /\ length (write_int64 unix) = 8%nat.
Proof.
  intros Hexp Hbody.
  apply Notification_Bytes_Ok in Hbody
    as (token & payload & identifier & _ & _ & _ & _ & ->).
  rewrite Hexp.
  exists (write_item 1 32 token ++ write_item 2 (len payload) payload
          ++ write_item 3 4 identifier).
  split; [|apply length_BigEndian_put].
  rewrite <- !app_assoc. reflexivity.
Qed.

Lemma BigEndian_uint_2 (a b : byte) :
  BigEndian_uint [a; b] = byte_to_Z a * 256 + byte_to_Z b.
Proof.
  unfold BigEndian_uint. cbn [fold_left].
  rewrite !lor_shiftl_byte. lia.
Qed.

Lemma BigEndian_uint_4 (a b c d : byte) :
  BigEndian_uint [a; b; c; d]
  = byte_to_Z a * 16777216 + BigEndian_uint [b; c] * 256 + byte_to_Z d.
Proof.
  unfold BigEndian_uint. cbn [fold_left].
  rewrite !lor_shiftl_byte. lia.
Qed.

(** An expiration date from 1970 to 2106 is written as four zero bytes
    followed by its four bytes. *)
Lemma write_int64_small (unix : Z) :
  0 <= unix < 2 ^ 32 ->
  write_int64 unix = [x00; x00; x00; x00] ++ write_uint32 unix.
Proof.
  intros H. unfold write_int64, write_uint32.
  change (BigEndian_put 8 unix)
    with (byte_of_Z (Z.shiftr unix 56) :: byte_of_Z (Z.shiftr unix 48)
          :: byte_of_Z (Z.shiftr unix 40) :: byte_of_Z (Z.shiftr unix 32)
          :: BigEndian_put 4 unix).
  rewrite !Z.shiftr_div_pow2 by lia.
  rewrite !Z.div_small by lia. reflexivity.
Qed.

Lemma expiration_item_ok_false (unix id declared : Z) (content : list byte) :
  id <> 4 \/ declared <> 4 \/ BigEndian_uint content <> unix mod 2 ^ 32 ->
  expiration_item_ok unix (mkItem id declared content) = false.
Proof.
  unfold expiration_item_ok, ExpirationDateItemID.
  cbn [item_id item_declared item_content].
  intros [H|[H|H]]; apply Z.eqb_neq in H; rewrite H;
    now rewrite ?andb_false_r.
Qed.

Ltac reader_step :=
  repeat match goal with
         | |- context [Z.to_nat ?z] =>
             let n := eval vm_compute in (Z.to_nat z) in
             progress change (Z.to_nat z) with n
         end;
  cbn [take drop firstn skipn read_items option_map].

(** What follows the first three items when the date is between 1970
    and 2106 is never read back with an expiration item that holds the
    date: the four bytes read as its content are zero, and the rest is
    out of step. *)
Lemma expiration_tail_misread (unix : Z) (priority : byte) :
  0 <= unix < 2 ^ 32 ->
  match items_of (write_item 4 4 (write_int64 unix)
                  ++ write_item 5 1 (write_uint8 (byte_to_Z priority))) with
  | Some items => existsb (expiration_item_ok unix) items = false
  | None => True
  end.
Proof.
  intros Hunix. rewrite write_int64_small by assumption.
  pose proof (BigEndian_uint_put_small 4 unix ltac:(simpl; lia)) as Hval.
  pose proof (length_BigEndian_put 4 unix) as Hl.
  unfold write_uint32. fold (write_uint32 unix) in Hval.
  unfold write_uint32 in Hval.
  destruct (BigEndian_put 4 unix) as [|b4 [|b5 [|b6 [|b7 [|? ?]]]]];
    try discriminate Hl.
  clear Hl. rewrite BigEndian_uint_4 in Hval.
  pose proof (byte_to_Z_range b4). pose proof (byte_to_Z_range b5).
  pose proof (byte_to_Z_range b6). pose proof (byte_to_Z_range b7).
  pose proof (byte_to_Z_range priority) as Hp.
  pose proof (BigEndian_uint_2 b5 b6) as Hn.
  unfold items_of, write_item, write_uint8, write_uint16.
  cbn [BigEndian_put app length].
  change (8 * Z.of_nat 0) with 0. change (8 * Z.of_nat 1) with 8.
  rewrite !Z.shiftr_0_r, byte_of_to_Z.
  change (byte_of_Z (Z.shiftr 4 8)) with x00. change (byte_of_Z 4) with x04.
  change (byte_of_Z (Z.shiftr 1 8)) with x00. change (byte_of_Z 1) with x01.
  change (byte_of_Z 5) with x05.
  reader_step.
  change (BigEndian_uint [x00; x04]) with 4.
  change (len [x00; x00; x00; x00; b4; b5; b6; b7; x05; x00; x01; priority])
    with 12.
  change (4 <=? 12) with true. reader_step.
  change (len [b7; x05; x00; x01; priority]) with 5.
  destruct (BigEndian_uint [b5; b6] <=? 5) eqn:Hle; [|exact I].
  apply Z.leb_le in Hle.
  assert (Hcases : BigEndian_uint [b5; b6] = 0 \/ BigEndian_uint [b5; b6] = 1
                   \/ BigEndian_uint [b5; b6] = 2 \/ BigEndian_uint [b5; b6] = 3
                   \/ BigEndian_uint [b5; b6] = 4 \/ BigEndian_uint [b5; b6] = 5)
    by lia.
  assert (Hzero : BigEndian_uint [x00; x00; x00; x00] = 0) by reflexivity.
  destruct Hcases as [E|[E|[E|[E|[E|E]]]]]; rewrite E in *; reader_step.
  - change (BigEndian_uint [x05; x00]) with 1280.
    change (len [x01; priority]) with 2. exact I.
  - change (BigEndian_uint [x00; x01]) with 1.
    change (len [priority]) with 1. change (1 <=? 1) with true. reader_step.
    cbn [existsb].
    rewrite !expiration_item_ok_false;
      [reflexivity | right; left; lia | right; left; lia
       | right; right; rewrite Hzero, Z.mod_small by lia; lia].
  - rewrite BigEndian_uint_2. change (byte_to_Z x01) with 1.
    change (len []) with 0.
    destruct (1 * 256 + byte_to_Z priority <=? 0) eqn:Hbad; [|exact I].
    apply Z.leb_le in Hbad. lia.
  - exact I.
  - exact I.
  - cbn [existsb].
    rewrite !expiration_item_ok_false;
      [reflexivity | right; left; lia
       | right; right; rewrite Hzero, Z.mod_small by lia; lia].
Qed.

(** C1. The frame starts with the byte 2 and the big-endian length [L]
    of what follows, but with an expiration date the item sizes
    announced in the headers do not add up to [L], and the expiration
    item is not 4 bytes of unsigned seconds: the encoder announces 4
    bytes and writes the 8 bytes of the [int64] that [Unix()] returns.
    For every notification with an expiration date between 1970 and
    2106 that encodes, the frame is not as the specification describes
    it. *)
Theorem dated_frame_does_not_conform {any : Type}
    (json_Marshal : gmap string (PayloadField any) -> Result (list byte))
    (n : Notification any) (unix : Z) (frame : list byte) :
  ExpirationDate n = Some unix ->
  0 <= unix < 2 ^ 32 ->
  PushNotificationCommand_Bytes json_Marshal n = Ok frame ->
  frame_conforms n frame = false.
Proof.
  intros Hexp Hunix Hframe.
  destruct (frame_header json_Marshal n frame Hframe) as (body & Hbody & -> & HL).
  apply Notification_Bytes_Ok in Hbody
    as (token & payload & identifier & Ht & Hp & Hi & _ & ->).
  unfold frame_conforms. rewrite Hexp in HL |- *.
  rewrite read_frame_header, HL, Z.eqb_refl.
  pose proof (len_nonneg payload).
  rewrite !items_of_write_item by (reflexivity || lia).
  pose proof (expiration_tail_misread unix (Priority n) Hunix) as Htail.
  destruct (items_of _) as [items|]; [|reflexivity].
  cbn [option_map existsb]. rewrite Htail.
  rewrite !expiration_item_ok_false by (left; lia).
  apply andb_false_r.
Qed.

(** The notification [expiring], dated 2023. *)
Lemma dated_frame_does_not_conform_witness :
  ExpirationDate expiring = Some 1700000000
  /\ 0 <= 1700000000 < 2 ^ 32
  /\ PushNotificationCommand_Bytes PlainJSON.Marshal expiring
     = Ok (frame_of expiring)
  /\ frame_conforms expiring (frame_of expiring) = false.
Proof.
  split; [reflexivity|]. split; [lia|]. split; [reflexivity|].
  apply (dated_frame_does_not_conform PlainJSON.Marshal expiring 1700000000
           (frame_of expiring)); [reflexivity | lia | reflexivity].
Defined.

(** The frame of the notification [expiring], byte by byte: [L] is 100
    where the headers announce 85 + 7 + 4 = 96, and the frame cannot be
    read back item by item. Without expiration date the same
    notification gives a frame that conforms. *)
Lemma expiration_item_overruns_its_header :
  PushNotificationCommand_Bytes PlainJSON.Marshal expiring
  = Ok ([x02] ++ write_uint32 100 ++ hello_items
        ++ write_item 4 4 (write_int64 1700000000) ++ write_item 5 1 [x0a])
  /\ len (hello_items ++ write_item 4 4 (write_int64 1700000000)
          ++ write_item 5 1 [x0a]) = 100
  /\ option_map items_size (items_of hello_items) = Some 85
  /\ write_int64 1700000000 = [x00; x00; x00; x00; x65; x53; xf1; x00]
  /\ read_frame (frame_of expiring) = None
  /\ frame_conforms expiring (frame_of expiring) = false
  /\ frame_conforms hello (frame_of hello) = true.
Proof. repeat split; vm_compute; reflexivity. Qed.

(** ** The worker's turn *)

Lemma received_values_app {A} (c : chan A) (l : list (option A)) :
  omap id (ch_received c ++ l) = received_values c ++ omap id l.
Proof. unfold received_values. apply omap_app. Qed.

Lemma omap_id_Some {A} (l : list A) : omap id (map Some l) = l.
Proof. induction l as [|a l IH]; [reflexivity|]. cbn. now f_equal. Qed.

Lemma omap_id_None {A} (k : nat) : omap id (repeat (@None A) k) = [].
Proof. induction k as [|k IH]; simpl; [reflexivity | exact IH]. Qed.

Ltac turn_cases :=
  cbv [bindM retM when reconnect send_pauseSignal send_readySignal
       take_pauseSignal send_errorSignal offer_error close_errors conn_Write
       chan_send chan_try_recv chan_close is_EOF is_Timeout
       with_commandsQueue with_workerQueue with_pauseSignal with_readySignal
       with_errorSignal with_cmdErrors with_written with_reconnects
       with_closeCalls commandsQueue workerQueue pauseSignal readySignal errorSignal cmdErrors written
       reconnects closeCalls ch_cap ch_buf ch_recvq ch_closed ch_received
       negb orb Nat.eqb Nat.ltb Nat.leb Nat.pred length];
  cbn [take app map repeat Nat.sub length];
  rewrite ?take_nil, ?Nat.sub_0_r; cbn [map app];
  rewrite <- ?app_assoc, ?app_nil_r; reflexivity.

(** The monadic turn and its summary agree; in particular the turn
    neither panics nor blocks. *)
Lemma executionLoopTurn_after_turn (peer : Peer) (cmd : Command) (w : World) :
  turn_ready w ->
  executionLoopTurn peer cmd w = Done tt (after_turn peer cmd w).
Proof.
  intros (Hp & Hr & He).
  destruct w as [q wq p r es ce wr rc cc].
  destruct p as [pcap pbuf precv pclosed prec].
  destruct r as [rcap rbuf rrecv rclosed rrec].
  destruct ce as [ccap cbuf crecv cclosed crec].
  unfold signal_idle, errors_open in *. simpl in *.
  destruct Hp as (-> & -> & -> & ->), Hr as (-> & -> & -> & ->), He as (-> & -> & ->).
  unfold executionLoopTurn, executeCommand, after_turn, raised_errors, reconnect_scheduled.
  destruct (Bytes cmd) as [cmdBytes|e].
  - destruct (write_err peer) as [e|].
    + destruct e; destruct crecv as [|[|k]]; turn_cases.
    + destruct (conn_Read (repeat x00 6) (response peer)) as [[buf read] err].
      destruct (read >? 0); destruct err as [[]|]; destruct crecv as [|[|k]];
        turn_cases.
  - destruct crecv as [|[|k]]; turn_cases.
Qed.

Lemma received_after_turn (peer : Peer) (cmd : Command) (w : World) :
  received_values (cmdErrors (after_turn peer cmd w))
  = received_values (cmdErrors w)
    ++ take (ch_recvq (cmdErrors w)) (raised_errors peer cmd).
Proof.
  unfold after_turn. cbn [cmdErrors]. unfold received_values at 1.
  cbn [ch_received].
  now rewrite received_values_app, omap_app, omap_id_Some, omap_id_None, app_nil_r.
Qed.

(** The errors of a turn by the place that raises them. *)
Lemma raised_errors_by_place (peer : Peer) (cmd : Command) :
  raised_errors peer cmd = response_errors peer cmd ++ returned_errors peer cmd.
Proof.
  unfold raised_errors, response_errors, returned_errors.
  destruct (Bytes cmd); [|reflexivity].
  destruct (write_err peer); [reflexivity|].
  now destruct (conn_Read (repeat x00 6) (response peer)) as [[buf read] err].
Qed.

Lemma at_most_two_errors (peer : Peer) (cmd : Command) :
  (length (response_errors peer cmd) <= 1)%nat
  /\ (length (returned_errors peer cmd) <= 1)%nat.
Proof.
  unfold response_errors, returned_errors.
  destruct (Bytes cmd); [|cbn; lia].
  destruct (write_err peer); [cbn; lia|].
  destruct (conn_Read (repeat x00 6) (response peer)) as [[buf read] err].
  split.
  - destruct (read >? 0); cbn; lia.
  - destruct (is_EOF err); [cbn; lia|].
    destruct (is_Timeout err); [cbn; lia|]. destruct err; cbn; lia.
Qed.

Ltac arrivals_run :=
  cbv [bindM retM when reconnect send_pauseSignal send_readySignal
       take_pauseSignal send_errorSignal offer_error close_errors conn_Write
       park_listeners
       chan_send chan_try_recv chan_close is_EOF is_Timeout
       with_commandsQueue with_workerQueue with_pauseSignal with_readySignal
       with_errorSignal with_cmdErrors with_written with_reconnects
       with_closeCalls commandsQueue workerQueue pauseSignal readySignal
       errorSignal cmdErrors written
       reconnects closeCalls ch_cap ch_buf ch_recvq ch_closed ch_received
       negb orb Nat.eqb Nat.ltb Nat.leb Nat.pred length Nat.add];
  reflexivity.

Ltac arrivals_received :=
  cbn [errorSignal cmdErrors ch_received ch_closed is_EOF is_Timeout
       take length Nat.sub Nat.add app map];
  fold Nat.add;
  split; [cbn [app]; rewrite <- ?app_assoc, ?app_nil_r; reflexivity|];
  rewrite ?take_nil; cbn [app map length Nat.sub];
  rewrite <- ?app_assoc; cbn [app];
  repeat (f_equal; try lia).

(** The turn with arrivals, whatever the schedule: it returns, every
    error went to the error signal, the receivers were handed
    [delivered_errors] and those left over the zero value of the close,
    and the channel is closed. *)
Lemma executionLoopTurn_arrivals_delivers
    (peer : Peer) (cmd : Command) (during after : nat) (w : World) :
  turn_ready w ->
  exists w',
    executionLoopTurn_arrivals during after peer cmd w = Done tt w'
    /\ errorSignal w'
       = errorSignal w ++ response_errors peer cmd ++ returned_errors peer cmd
    /\ cmdErrors w'
       = mkChan 0 [] 0 true
           (ch_received (cmdErrors w)
            ++ map Some (delivered_errors (ch_recvq (cmdErrors w)) during peer cmd)
            ++ repeat None
                 (ch_recvq (cmdErrors w) + during + after
                  - length (delivered_errors (ch_recvq (cmdErrors w)) during
                              peer cmd))).
Proof.
  intros (Hp & Hr & He).
  destruct w as [q wq p r es ce wr rc cc].
  destruct p as [pcap pbuf precv pclosed prec].
  destruct r as [rcap rbuf rrecv rclosed rrec].
  destruct ce as [ccap cbuf crecv cclosed crec].
  unfold signal_idle, errors_open in *. simpl in *.
  destruct Hp as (-> & -> & -> & ->), Hr as (-> & -> & -> & ->), He as (-> & -> & ->).
  unfold executionLoopTurn_arrivals, executeCommand, delivered_errors,
    response_errors, returned_errors, received_values.
  destruct (Bytes cmd) as [cmdBytes|e].
  - destruct (write_err peer) as [e|].
    + destruct e; destruct crecv as [|[|k]]; destruct during as [|d];
        (eexists; split; [arrivals_run|]); arrivals_received.
    + destruct (conn_Read (repeat x00 6) (response peer)) as [[buf read] err].
      destruct (read >? 0); destruct err as [[]|]; destruct crecv as [|[|k]];
        destruct during as [|d];
        (eexists; split; [arrivals_run|]); arrivals_received.
  - destruct crecv as [|[|k]]; destruct during as [|d];
      (eexists; split; [arrivals_run|]); arrivals_received.
Qed.

Lemma bindM_ext {A B} (m : M A) (k k' : A -> M B) (w : World) :
  (forall a w', k a w' = k' a w') -> bindM m k w = bindM m k' w.
Proof. intros Hk. unfold bindM. destruct (m w); auto. Qed.

Lemma park_no_listener {B} (k : unit -> M B) (w : World) :
  bindM (park_listeners 0) k w = k tt w.
Proof.
  unfold bindM, park_listeners. destruct w as [q wq p r es ce wr rc cc].
  destruct ce. unfold with_cmdErrors. cbn. now rewrite Nat.add_0_r.
Qed.

(** With no receiver arriving, the turn is [executionLoopTurn]. *)
Lemma executionLoopTurn_no_arrival (peer : Peer) (cmd : Command) (w : World) :
  executionLoopTurn_arrivals 0 0 peer cmd w = executionLoopTurn peer cmd w.
Proof.
  unfold executionLoopTurn_arrivals, executionLoopTurn.
  apply bindM_ext. intros err w1. rewrite park_no_listener.
  apply bindM_ext. intros [] w2. apply park_no_listener.
Qed.

(** C3, as the code has it. Every error raised while a command is
    executed is sent on the worker's error signal, from where the
    process-wide stream is fed, and offered to the command's channel by
    a send that does not wait. There are at most two: the decoded
    response, raised inside [executeCommand], and the error that
    [executeCommand] returns (encode, write or read error), raised by
    the loop. Whenever receivers come to the channel, the response is
    handed over exactly when a receiver was waiting before it was
    offered, and the returned error exactly when a receiver is waiting
    when the loop offers it: one that was there before and got no
    response, or one that came in between. An error offered while nobody
    waits is dropped. The turn returns and the channel is closed. *)
Theorem errors_offered_without_waiting
    (peer : Peer) (cmd : Command) (during after : nat) (w : World) :
  turn_ready w ->
  exists w',
    executionLoopTurn_arrivals during after peer cmd w = Done tt w'
    /\ raised_errors peer cmd = response_errors peer cmd ++ returned_errors peer cmd
    /\ (length (response_errors peer cmd) <= 1)%nat
    /\ (length (returned_errors peer cmd) <= 1)%nat
    /\ errorSignal w' = errorSignal w ++ raised_errors peer cmd
    /\ (let waiting := ch_recvq (cmdErrors w) in
        let first := take waiting (response_errors peer cmd) in
        received_values (cmdErrors w')
        = received_values (cmdErrors w)
          ++ first
          ++ take (waiting - length first + during) (returned_errors peer cmd))
    /\ ch_closed (cmdErrors w') = true.
Proof.
  intros Hready.
  destruct (executionLoopTurn_arrivals_delivers peer cmd during after w Hready)
    as (w' & Hrun & Hsignal & Hchannel).
  exists w'. split; [exact Hrun|].
  split; [apply raised_errors_by_place|].
  split; [apply at_most_two_errors|]. split; [apply at_most_two_errors|].
  split; [now rewrite raised_errors_by_place|].
  rewrite Hchannel. split; [|reflexivity].
  cbv zeta. unfold received_values at 1. cbn [ch_received].
  rewrite !omap_app, omap_id_Some, omap_id_None, app_nil_r.
  reflexivity.
Qed.

(** The peer answers "invalid token" and closes the connection; nobody
    waits on the command's channel when the response is offered, and one
    receiver comes before the loop offers the read error: it is handed
    the read error, the second of the two errors raised. *)
Lemma errors_offered_without_waiting_witness :
  turn_ready world_unheard /\
  exists w',
    executionLoopTurn_arrivals 1 0 peer_rejects_and_closes hello_command
      world_unheard = Done tt w'
    /\ map CommandError_Error (errorSignal w')
       = [ "apns: Invalid token for notification #aabbccdd";
           "apns/worker: Connection was closed by peer after reading data" ]%string
    /\ map CommandError_Error (received_values (cmdErrors w'))
       = [ "apns/worker: Connection was closed by peer after reading data" ]%string.
Proof.
  assert (Hready : turn_ready world_unheard) by (repeat split; reflexivity).
  split; [exact Hready|].
  destruct (errors_offered_without_waiting peer_rejects_and_closes hello_command
              1 0 world_unheard Hready)
    as (w' & Hrun & _ & _ & _ & Hsignal & Hreceived & _).
  exists w'. split; [exact Hrun|].
  rewrite Hsignal, Hreceived. split; reflexivity.
Defined.

(** C3, refuted as stated: the peer answers "invalid token" while nobody
    waits on the command's channel; the error goes to the error signal
    and is never delivered on the command's channel, which is closed
    empty. *)
Lemma error_dropped_without_listener :
  (exists w',
     executionLoopTurn peer_invalid_token hello_command world_unheard
     = Done tt w'
     /\ map CommandError_Error (errorSignal w')
        = ["apns: Invalid token for notification #aabbccdd"%string]
     /\ received_values (cmdErrors w') = []
     /\ ch_closed (cmdErrors w') = true)
  /\ errors_always_delivered peer_invalid_token hello_command
       world_unheard = false.
Proof.
  split; [eexists; split; [vm_compute; reflexivity|]|];
    repeat split; vm_compute; reflexivity.
Qed.

(** C4, as the code has it. After the frame is written: a read that
    times out with zero bytes raises no error, schedules no reconnect,
    and the worker signals ready; a read that meets EOF with zero bytes
    schedules a reconnect (the worker does not signal ready), and the
    error "Connection was closed by peer after reading data" is raised
    for the command: it goes to the error signal and is offered to the
    command's channel, where a waiting receiver gets it. In both cases
    the command's channel is then closed. *)
Theorem read_timeout_and_eof
    (cmd : Command) (cmdBytes : list byte) (w : World) :
  turn_ready w ->
  Bytes cmd = Ok cmdBytes ->
  (exists w',
     executionLoopTurn peer_silent cmd w = Done tt w'
     /\ written w' = written w ++ [cmdBytes]
     /\ errorSignal w' = errorSignal w
     /\ received_values (cmdErrors w') = received_values (cmdErrors w)
     /\ reconnects w' = reconnects w
     /\ ch_buf (readySignal w') = [true]
     /\ ch_closed (cmdErrors w') = true)
  /\
  (exists w',
     executionLoopTurn peer_closes cmd w = Done tt w'
     /\ written w' = written w ++ [cmdBytes]
     /\ errorSignal w'
        = errorSignal w ++ [NewCommandError (Some read_closed_by_peer) (Some cmd)]
     /\ received_values (cmdErrors w')
        = received_values (cmdErrors w)
          ++ take (ch_recvq (cmdErrors w))
                  [NewCommandError (Some read_closed_by_peer) (Some cmd)]
     /\ reconnects w' = S (reconnects w)
     /\ ch_buf (readySignal w') = ch_buf (readySignal w)
     /\ ch_closed (cmdErrors w') = true).
Proof.
  intros Hready Hbytes. split.
  - exists (after_turn peer_silent cmd w).
    split; [now apply executionLoopTurn_after_turn|].
    rewrite received_after_turn.
    unfold after_turn, raised_errors, reconnect_scheduled. rewrite Hbytes.
    cbn. change (len [] >? 0) with false. cbn.
    rewrite take_nil, !app_nil_r. repeat split.
  - exists (after_turn peer_closes cmd w).
    split; [now apply executionLoopTurn_after_turn|].
    rewrite received_after_turn.
    unfold after_turn, raised_errors, reconnect_scheduled. rewrite Hbytes.
    cbn. change (len [] >? 0) with false. cbn. repeat split.
Qed.

(** The peer closes the connection while one receiver waits. *)
Lemma read_timeout_and_eof_witness :
  turn_ready world_listening
  /\ is_Ok (Bytes hello_command) = true
  /\ exists w',
       executionLoopTurn peer_closes hello_command world_listening
       = Done tt w'
       /\ reconnects w' = 1%nat
       /\ received_values (cmdErrors w')
          = [NewCommandError (Some read_closed_by_peer) (Some hello_command)].
Proof.
  assert (Hready : turn_ready world_listening)
    by (repeat split; reflexivity).
  split; [exact Hready|]. split; [reflexivity|].
  destruct (read_timeout_and_eof hello_command (frame_of hello)
              world_listening Hready eq_refl)
    as [_ (w' & Hrun & _ & _ & Hreceived & Hreconnects & _)].
  exists w'. repeat split; assumption.
Defined.

(** C4, refuted as stated: the peer closes the connection without a
    byte while a receiver waits on the command's channel; the receiver
    is handed the error "Connection was closed by peer after reading
    data". *)
Lemma eof_error_reaches_listener :
  (exists w',
     executionLoopTurn peer_closes hello_command world_listening
     = Done tt w'
     /\ map CommandError_Error (received_values (cmdErrors w'))
        = ["apns/worker: Connection was closed by peer after reading data"%string]
     /\ reconnects w' = 1%nat)
  /\ eof_is_silent hello_command world_listening = false.
Proof.
  split; [eexists; split; [vm_compute; reflexivity|]|];
    repeat split; vm_compute; reflexivity.
Qed.

(** ** Submission *)

Ltac world_fields :=
  cbn [with_commandsQueue with_workerQueue with_pauseSignal with_readySignal
       with_errorSignal with_cmdErrors with_written with_reconnects
       with_closeCalls commandsQueue workerQueue pauseSignal readySignal
       errorSignal cmdErrors written
       reconnects closeCalls ch_cap ch_buf ch_recvq ch_closed ch_received
       negb Nat.eqb Nat.pred retM].

Ltac world_fields_in_all :=
  cbn [with_commandsQueue with_workerQueue with_pauseSignal with_readySignal
       with_errorSignal with_cmdErrors with_written with_reconnects
       with_closeCalls commandsQueue workerQueue pauseSignal readySignal
       errorSignal cmdErrors written
       reconnects closeCalls ch_cap ch_buf ch_recvq ch_closed ch_received
       negb Nat.eqb Nat.pred retM] in *.

(** C7, as the code has it. [ExecuteCommand] never waits. With fewer
    commands in the queue than its capacity, the queue takes the command,
    the call returns nil and the command's channel is left as it was. At
    capacity, with no receive pending on the queue, the command's channel
    is closed, the queue-full error is returned and the queue is left as
    it was. A receive can be pending on a queue at capacity only when the
    capacity is 0; the command is then handed to the receiver and the
    call returns nil. *)
Theorem submit_does_not_wait (cmd : Command) (w : World) :
  chan_wf (commandsQueue w) ->
  ch_closed (commandsQueue w) = false ->
  ch_closed (cmdErrors w) = false ->
  let q := commandsQueue w in
  ((length (ch_buf q) < ch_cap q)%nat ->
   exists w',
     ExecuteCommand cmd w = Done None w'
     /\ cmdErrors w' = cmdErrors w
     /\ closeCalls w' = closeCalls w
     /\ queue_took q (commandsQueue w') cmd = true)
  /\
  ((length (ch_buf q) = ch_cap q)%nat -> ch_recvq q = 0%nat ->
   exists w',
     ExecuteCommand cmd w
     = Done (Some (NewCommandError (Some queue_full) (Some cmd))) w'
     /\ commandsQueue w' = q
     /\ ch_closed (cmdErrors w') = true
     /\ closeCalls w' = S (closeCalls w))
  /\
  ((length (ch_buf q) = ch_cap q)%nat -> ch_recvq q <> 0%nat ->
   ch_cap q = 0%nat
   /\ exists w',
        ExecuteCommand cmd w = Done None w'
        /\ cmdErrors w' = cmdErrors w
        /\ ch_received (commandsQueue w') = ch_received q ++ [Some cmd]).
Proof.
  intros [Hcap Hparked] Hopen Herrors q. subst q.
  destruct w as [q wq p r es ce wr rc cc]. cbn [commandsQueue cmdErrors closeCalls] in *.
  destruct q as [cap buf recvq closed received]. world_fields_in_all.
  subst closed. unfold ExecuteCommand, chan_send, queue_took. world_fields.
  split; [|split].
  - intros Hroom. destruct recvq as [|k]; world_fields.
    + apply Nat.ltb_lt in Hroom. rewrite Hroom. eexists. repeat split.
      world_fields. now rewrite bool_decide_eq_true_2.
    + eexists. repeat split. world_fields.
      rewrite (bool_decide_eq_true_2 (received ++ _ = _)) by reflexivity.
      apply orb_true_r.
  - intros Hfull ->. world_fields.
    assert (Hnoroom : (length buf <? cap)%nat = false) by (apply Nat.ltb_ge; lia).
    rewrite Hnoroom. unfold bindM, close_errors, chan_close. world_fields.
    rewrite Herrors. eexists. repeat split.
  - intros Hfull Hrecv. destruct (Hparked Hrecv) as [-> _].
    split; [now rewrite <- Hfull|].
    destruct recvq as [|k]; [congruence|]. world_fields.
    eexists. repeat split.
Qed.

(** A queue of capacity 1 that holds a command rejects the next one. *)
Lemma submit_does_not_wait_witness :
  chan_wf (mkChan 1 [hello_command] 0 false [])
  /\ exists w',
       ExecuteCommand short_token_command
         world_full
       = Done (Some (NewCommandError (Some queue_full) (Some short_token_command))) w'
       /\ commandsQueue w' = mkChan 1 [hello_command] 0 false []
       /\ ch_closed (cmdErrors w') = true
       /\ closeCalls w' = 1%nat.
Proof.
  assert (Hwf : chan_wf (mkChan 1 [hello_command] 0 false []))
    by (split; [cbn; lia | intros H; now contradict H]).
  split; [exact Hwf|].
  destruct (submit_does_not_wait short_token_command
              world_full
              Hwf eq_refl eq_refl) as (_ & Hfull & _).
  exact (Hfull eq_refl eq_refl).
Defined.

(** C7, refuted as stated: a queue of capacity 0 holds 0 commands, so it
    is at capacity, yet with the dispatcher waiting on it the submission
    succeeds: the command is handed over and its channel stays open. *)
Lemma rendezvous_submission_succeeds :
  length (ch_buf rendezvous_queue) = ch_cap rendezvous_queue
  /\ chan_wf rendezvous_queue
  /\ (exists w',
        ExecuteCommand hello_command world_rendezvous = Done None w'
        /\ ch_received (commandsQueue w') = [Some hello_command]
        /\ ch_closed (cmdErrors w') = false)
  /\ submit_as_specified hello_command world_rendezvous = false.
Proof.
  split; [reflexivity|]. split; [split; [cbn; lia | now intros _]|].
  split; [eexists; split; [vm_compute; reflexivity|]|];
    repeat split; vm_compute; reflexivity.
Qed.

(** ** The command's channel *)

(** A second [close] of the channel is a panic. *)
Lemma second_close_panics (w : World) :
  ch_closed (cmdErrors w) = true -> close_errors w = Panic.
Proof. intros H. unfold close_errors, chan_close. now rewrite H. Qed.

(** C8, as the code has it. The channel behind [cmd.Errors()] of a
    submitted command is never closed twice, and no path panics on a
    second close. It is closed exactly once as soon as the command is
    rejected by [ExecuteCommand] (queue full) or handed to a worker,
    which closes it at the end of the turn whether the command was
    written without answer, failed to encode, failed to be written, or
    drew an error response. An accepted command waits for a ready worker
    with its channel open; it is handed over if the registry holds one. *)
Theorem errors_channel_closed_at_most_once
    (peer : Peer) (listeners : nat) (cmd : Command) (w : World) :
  ch_closed (commandsQueue w) = false ->
  turn_ready w ->
  match submitAndRun peer listeners cmd w with
  | Done _ w' =>
      closeCalls w' = S (closeCalls w) /\ ch_closed (cmdErrors w') = true
  | Blocked w' =>
      ch_buf (workerQueue w) = []
      /\ closeCalls w' = closeCalls w /\ ch_closed (cmdErrors w') = false
  | Panic => False
  end
  /\ (ch_buf (workerQueue w) <> [] ->
      exists r w', submitAndRun peer listeners cmd w = Done r w').
Proof.
  intros Hopen Hready.
  unfold submitAndRun, bindM, ExecuteCommand.
  destruct (chan_send (commandsQueue w) cmd) as [q'| |] eqn:Hsend.
  - unfold park_listeners, await_worker. world_fields.
    destruct (ch_buf (workerQueue w)) as [|id rest].
    + split; [|congruence]. destruct Hready as (_ & _ & _ & _ & Herrors).
      repeat split. exact Herrors.
    + match goal with
      | |- context [executionLoopTurn peer cmd ?w2] =>
          assert (Hready2 : turn_ready w2) by
            (destruct Hready as (Hp & Hr & He1 & He2 & He3);
             repeat split; world_fields; solve [apply Hp | apply Hr | assumption]);
          rewrite (executionLoopTurn_after_turn peer cmd w2 Hready2)
      end.
      split; [split; reflexivity|]. intros _. eexists _, _. reflexivity.
  - destruct Hready as (_ & _ & _ & _ & Herrors).
    unfold bindM, close_errors, chan_close, retM. rewrite Herrors.
    split; [split; reflexivity|]. intros _. eexists _, _. reflexivity.
  - unfold chan_send in Hsend. rewrite Hopen in Hsend.
    destruct (negb _); [discriminate|]. now destruct (_ <? _)%nat.
Qed.

(** With two ready workers the command is handed over and run. *)
Lemma errors_channel_closed_at_most_once_witness :
  ch_closed (commandsQueue world_unheard) = false
  /\ turn_ready world_unheard
  /\ exists r w',
       submitAndRun peer_invalid_token 1 hello_command world_unheard = Done r w'.
Proof.
  assert (Hready : turn_ready world_unheard) by (repeat split; reflexivity).
  split; [reflexivity|]. split; [exact Hready|].
  destruct (errors_channel_closed_at_most_once peer_invalid_token 1 hello_command
              world_unheard eq_refl Hready) as [_ Hdone].
  apply Hdone. discriminate.
Defined.

(** C8, refuted as stated: a command submitted to a client none of whose
    workers is running is accepted, its listener waits, and the
    goroutine that should hand it to a worker parks on the empty
    registry; the command's channel has not been closed. *)
Lemma command_without_worker_stays_open :
  (exists w',
     submitAndRun peer_silent 1 hello_command world_without_worker = Blocked w'
     /\ closeCalls w' = 0%nat
     /\ ch_closed (cmdErrors w') = false
     /\ ch_recvq (cmdErrors w') = 1%nat)
  /\ closed_exactly_once peer_silent 1 hello_command world_without_worker = false.
Proof.
  split; [eexists; split; [vm_compute; reflexivity|]|];
    repeat split; vm_compute; reflexivity.
Qed.

(** * Further properties *)

(** ** Hexadecimal text *)

Lemma hex_Decode_pair (b : byte) (rest : list byte) :
  hex_Decode (hex_digit (Z.shiftr (byte_to_Z b) 4)
              :: hex_digit (Z.land (byte_to_Z b) 15) :: rest)
  = ((b :: (hex_Decode rest).1), (hex_Decode rest).2).
Proof.
  destruct b; cbn [hex_Decode]; destruct (hex_Decode rest); reflexivity.
Qed.

(** Decoding what [hex.EncodeToString] wrote gives the bytes back. *)
Lemma hex_Decode_Encode (bs : list byte) :
  hex_Decode (hex_Encode bs) = (bs, None).
Proof.
  induction bs as [|b bs IH]; [reflexivity|].
  unfold hex_Encode in *. cbn [flat_map app].
  rewrite hex_Decode_pair, IH. reflexivity.
Qed.

Lemma hex_DecodeString_EncodeToString (bs : list byte) :
  hex_DecodeString (hex_EncodeToString bs) = (bs, None).
Proof.
  unfold hex_DecodeString, hex_EncodeToString.
  rewrite list_byte_of_string_of_list_byte. apply hex_Decode_Encode.
Qed.

(** ** What a frame holds *)

Section FrameContents.

Context {any : Type}.
Variable json_Marshal : gmap string (PayloadField any) -> Result (list byte).

(** A successful [Notification.Bytes] wrote the decoded token, the
    serialized payload, the decoded identifier, the date if there is one,
    and the priority byte, in this order. *)
Lemma Notification_Bytes_layout (n : Notification any) (body : list byte) :
  Notification_Bytes json_Marshal n = Ok body ->
  exists token payload identifier,
    hex_DecodeString (DeviceToken n) = (token, None) /\ len token = 32 /\
    JSON json_Marshal (NotificationPayload n) = Ok payload /\ len payload <= 2048 /\
    hex_DecodeString (NotificationIdentifier n) = (identifier, None) /\
    len identifier = 4 /\
    body = write_item 1 32 token ++ write_item 2 (len payload) payload
           ++ write_item 3 4 identifier
           ++ match ExpirationDate n with
              | Some unix => write_item 4 4 (write_int64 unix)
              | None => []
              end
           ++ write_item 5 1 [Priority n].
Proof.
  unfold Notification_Bytes.
  destruct (hex_DecodeString (DeviceToken n)) as [token [e|]]; [discriminate|].
  destruct (len token =? DeviceTokenItemLength) eqn:Htoken; [|discriminate].
  destruct (JSON json_Marshal (NotificationPayload n)) as [payload|e];
    [|discriminate].
  unfold bind.
  destruct (len payload >? PayloadItemMaxLength) eqn:Hpayload; [discriminate|].
  destruct (hex_DecodeString (NotificationIdentifier n)) as [identifier [e|]];
    [discriminate|].
  destruct (len identifier =? NotificationIdentifierItemLength) eqn:Hid;
    [|discriminate].
  simpl negb. cbv iota. intros [= <-].
  exists token, payload, identifier.
  apply Z.eqb_eq in Htoken, Hid. rewrite Z.gtb_ltb in Hpayload.
  apply Z.ltb_ge in Hpayload.
  repeat split; try assumption.
  replace [Priority n] with (write_uint8 (byte_to_Z (Priority n)))
    by (unfold write_uint8; cbn [BigEndian_put]; change (8 * Z.of_nat 0) with 0;
        now rewrite Z.shiftr_0_r, byte_of_to_Z).
  destruct (ExpirationDate n);
    unfold write_item, write_uint8, write_uint16;
    repeat (cbn [BigEndian_put app]; rewrite <- ?app_assoc); reflexivity.
Qed.

(** X1. Round trip of a frame without expiration date: read back as the
    specification describes the wire format, it gives the length of what
    follows the five header bytes and exactly four items: the decoded
    device token (32 bytes), the serialized payload, the decoded
    identifier (4 bytes) and the priority byte. *)
Theorem frame_reads_back (n : Notification any) (frame : list byte) :
  ExpirationDate n = None ->
  PushNotificationCommand_Bytes json_Marshal n = Ok frame ->
  exists payload,
    JSON json_Marshal (NotificationPayload n) = Ok payload
    /\ read_frame frame
       = Some (len frame - 5,
               [ mkItem 1 32 (hex_DecodeString (DeviceToken n)).1;
                 mkItem 2 (len payload) payload;
                 mkItem 3 4 (hex_DecodeString (NotificationIdentifier n)).1;
                 mkItem 5 1 [Priority n] ]).
Proof.
  intros Hexp Hframe.
  destruct (frame_header json_Marshal n frame Hframe) as (body & Hbody & -> & HL).
  apply Notification_Bytes_layout in Hbody
    as (token & payload & identifier & Ht & Htl & Hjson & Hpl & Hi & Hil & Hitems).
  rewrite Hexp, app_nil_l in Hitems.
  exists payload. split; [exact Hjson|].
  rewrite read_frame_header, HL, Z.eqb_refl, Ht, Hi. cbn [fst].
  pose proof (len_nonneg payload).
  replace (len ([x02] ++ write_uint32 (len body) ++ body) - 5) with (len body)
    by (rewrite !len_app; unfold len at 2 3; unfold write_uint32;
        rewrite length_BigEndian_put; simpl; lia).
  rewrite Hitems at 2.
  rewrite !items_of_write_item by (reflexivity || lia).
  rewrite <- (app_nil_r (write_item 5 _ _)).
  rewrite items_of_write_item by (reflexivity || lia). reflexivity.
Qed.

(** X2. The size of a frame: 54 bytes of framing plus the serialized
    payload, plus 11 bytes when there is an expiration date; hence
    never more than 2113 bytes. *)
Theorem frame_length (n : Notification any) (frame : list byte) :
  PushNotificationCommand_Bytes json_Marshal n = Ok frame ->
  exists payload,
    JSON json_Marshal (NotificationPayload n) = Ok payload
    /\ len frame
       = 54 + len payload + match ExpirationDate n with Some _ => 11 | None => 0 end
    /\ 54 <= len frame <= 2113.
Proof.
  intros Hframe.
  destruct (frame_header json_Marshal n frame Hframe) as (body & Hbody & -> & _).
  apply Notification_Bytes_layout in Hbody
    as (token & payload & identifier & _ & Htl & Hjson & Hpl & _ & Hil & ->).
  exists payload. split; [exact Hjson|].
  pose proof (len_nonneg payload).
  assert (Hlen : len ([x02] ++ write_uint32
                   (len (write_item 1 32 token ++ write_item 2 (len payload) payload
                         ++ write_item 3 4 identifier
                         ++ match ExpirationDate n with
                            | Some unix => write_item 4 4 (write_int64 unix)
                            | None => []
                            end ++ write_item 5 1 [Priority n]))
                   ++ write_item 1 32 token ++ write_item 2 (len payload) payload
                   ++ write_item 3 4 identifier
                   ++ match ExpirationDate n with
                      | Some unix => write_item 4 4 (write_int64 unix)
                      | None => []
                      end ++ write_item 5 1 [Priority n])
                 = 54 + len payload + match ExpirationDate n with Some _ => 11 | None => 0 end).
  { destruct (ExpirationDate n);
      unfold write_item, write_uint8, write_uint16, write_uint32, write_int64;
      rewrite !len_app; unfold len in *; rewrite ?length_BigEndian_put;
      simpl length; lia. }
  rewrite Hlen. split; [reflexivity|]. destruct (ExpirationDate n); lia.
Qed.

(** X3. Neither the priority nor the expiration date decides whether a
    notification encodes: any priority byte is written as it is, and no
    date is rejected. *)
Theorem priority_and_date_are_not_validated
    (token identifier : string) (payload : option (Payload any))
    (date date' : option Z) (priority priority' : byte) :
  is_Err (Notification_Bytes json_Marshal
            (mkNotification token payload identifier date priority))
  = is_Err (Notification_Bytes json_Marshal
              (mkNotification token payload identifier date' priority')).
Proof.
  unfold Notification_Bytes.
  cbn [DeviceToken NotificationPayload NotificationIdentifier ExpirationDate Priority].
  destruct (hex_DecodeString token) as [tok [e|]]; [reflexivity|].
  destruct (len tok =? DeviceTokenItemLength); [|reflexivity].
  destruct (JSON json_Marshal payload) as [bytes|e]; [|reflexivity].
  unfold bind.
  destruct (len bytes >? PayloadItemMaxLength); [reflexivity|].
  destruct (hex_DecodeString identifier) as [id [e|]]; [reflexivity|].
  now destruct (len id =? NotificationIdentifierItemLength).
Qed.

End FrameContents.

(** ** Custom fields *)

Section CustomFields.

Context {any : Type}.
Variable json_Marshal : gmap string (PayloadField any) -> Result (list byte).

Lemma payload_map_lookup_aps (aps : Aps any) (custom : gmap string any) :
  custom !! "aps" = None ->
  payload_map aps custom !! "aps" = Some (FieldAps aps).
Proof.
  intros Hfree. unfold payload_map.
  rewrite lookup_union_r by (now rewrite lookup_fmap, Hfree).
  apply lookup_singleton_eq.
Qed.

Lemma payload_map_lookup_custom (aps : Aps any) (custom : gmap string any)
    (key : string) :
  key <> "aps" ->
  payload_map aps custom !! key = FieldCustom <$> custom !! key.
Proof.
  intros Hkey. unfold payload_map.
  rewrite lookup_union, lookup_fmap, lookup_singleton_ne by done.
  now destruct (custom !! key).
Qed.

(** X4. Custom fields are flattened into the top level of the payload
    beside [aps]: when [MarshalJSON] gets to [json.Marshal], the map it
    hands over holds the aps object under "aps" and every custom field
    under its own key, and nothing else. *)
Theorem custom_fields_are_flattened (p : Payload any) (aps : Aps any) :
  PayloadAps p = Some aps ->
  customValues p !! "aps" = None ->
  exists m,
    MarshalJSON json_Marshal p = json_Marshal m
    /\ m !! "aps" = Some (FieldAps aps)
    /\ (forall key, key <> "aps" ->
        m !! key = FieldCustom <$> customValues p !! key)
    /\ dom m = {["aps"]} ∪ dom (customValues p).
Proof.
  intros Haps Hfree. exists (payload_map aps (customValues p)).
  split.
  { rewrite MarshalJSON_unfold, Haps.
    rewrite bool_decide_eq_false_2; [reflexivity|].
    rewrite Hfree. apply is_Some_None. }
  split; [now apply payload_map_lookup_aps|].
  split; [intros key Hkey; now apply payload_map_lookup_custom|].
  unfold payload_map. rewrite dom_union_L, dom_fmap_L, dom_singleton_L.
  apply (comm_L (∪)).
Qed.

(** X5. [AddCustomField] before [MarshalJSON]: a field named "aps" makes
    the serialization fail with the reserved-name error whatever its
    value; any other key is handed to [json.Marshal] with the value given
    last, beside the fields that were there. *)
Theorem AddCustomField_then_MarshalJSON
    (p : Payload any) (aps : Aps any) (key : string) (old value : any) :
  PayloadAps p = Some aps ->
  customValues p !! "aps" = None ->
  MarshalJSON json_Marshal (AddCustomField key value (AddCustomField key old p))
  = if String.eqb key "aps" then Err aps_reserved
    else json_Marshal (<[key := FieldCustom value]> (payload_map aps (customValues p))).
Proof.
  intros Haps Hfree. rewrite MarshalJSON_unfold.
  unfold AddCustomField. cbn [PayloadAps customValues]. rewrite Haps.
  rewrite insert_insert_eq.
  destruct (String.eqb_spec key "aps") as [->|Hkey].
  - rewrite lookup_insert_eq. now rewrite bool_decide_eq_true_2 by eauto.
  - rewrite lookup_insert_ne, Hfree by done.
    rewrite bool_decide_eq_false_2 by apply is_Some_None.
    unfold payload_map. now rewrite fmap_insert, insert_union_l.
Qed.

End CustomFields.

(** ** New and deserialized notifications *)

Lemma length_string_of_list_byte (l : list byte) :
  String.length (string_of_list_byte l) = length l.
Proof.
  induction l as [|b l IH]; [reflexivity|].
  change (S (String.length (string_of_list_byte l)) = S (length l)).
  now rewrite IH.
Qed.

Lemma length_hex_Encode (bs : list byte) :
  length (hex_Encode bs) = (2 * length bs)%nat.
Proof.
  unfold hex_Encode. induction bs as [|b bs IH]; [reflexivity|].
  cbn [flat_map app length]. rewrite IH. lia.
Qed.

(** What [rand.Read] leaves in the 4-byte slice is 4 bytes long. *)
Lemma length_randomID (bytes : list byte) :
  length (take 4 bytes ++ drop (length (take 4 bytes)) (repeat x00 4)) = 4%nat.
Proof.
  rewrite length_app, length_drop, length_take, repeat_length. lia.
Qed.

Section NewAndDecoded.

Context {any : Type}.
Variable nil : any.
Variable alertIsString : any -> bool.
Variable mapstructure_Decode : any -> Result any.

Lemma generated_identifier_passes (bytes : list byte) :
  identifier_rejected (NewNotification nil (Ok bytes)) = false.
Proof.
  unfold identifier_rejected, NewNotification.
  cbn [NotificationIdentifier length repeat].
  rewrite hex_DecodeString_EncodeToString.
  pose proof (length_randomID bytes) as Hlen. cbn [repeat] in Hlen.
  unfold len. now rewrite Hlen.
Qed.

(** X6. The identifier that [NewNotification] generates is 8 hexadecimal
    digits and passes the identifier check of [Notification.Bytes],
    decoding to the 4 random bytes. When [rand.Read] fails the
    identifier stays empty and the check rejects it. *)
Theorem generated_identifier_is_accepted :
  (forall bytes : list byte,
      let n := NewNotification nil (Ok bytes) in
      String.length (NotificationIdentifier n) = 8%nat
      /\ identifier_rejected n = false
      /\ hex_DecodeString (NotificationIdentifier n)
         = (take 4 bytes ++ drop (length (take 4 bytes)) (repeat x00 4), None))
  /\ (forall e : error, identifier_rejected (NewNotification nil (Err e)) = true).
Proof.
  split; [|reflexivity].
  intros bytes n. subst n.
  split; [|split; [apply generated_identifier_passes|]];
    unfold NewNotification; cbn [NotificationIdentifier length repeat].
  - unfold hex_EncodeToString.
    rewrite length_string_of_list_byte, length_hex_Encode.
    pose proof (length_randomID bytes) as Hlen. cbn [repeat] in Hlen.
    now rewrite Hlen.
  - apply hex_DecodeString_EncodeToString.
Qed.


(** X8. The server fills a [NewNotification] from the request body: when
    the body names no identifier the generated one stays and passes the
    identifier check; an identifier of the body is taken as it is. *)
Theorem unmarshal_identifier
    (fake : fakeNotification (any := any)) (bytes : list byte)
    (n' : Notification any) (err : option error) :
  UnmarshalJSON nil alertIsString mapstructure_Decode (Ok fake)
    (NewNotification nil (Ok bytes)) = Some (n', err) ->
  if String.eqb (fakeNotificationIdentifier fake) ""
  then identifier_rejected n' = false
       /\ NotificationIdentifier n'
          = NotificationIdentifier (NewNotification nil (Ok bytes))
  else NotificationIdentifier n' = fakeNotificationIdentifier fake.
Proof.
  unfold UnmarshalJSON.
  destruct (fakePayloadOf fake) as [payload|]; [|discriminate].
  intros Hn'.
  assert (Hid : NotificationIdentifier n'
                = if String.eqb (fakeNotificationIdentifier fake) ""
                  then NotificationIdentifier (NewNotification nil (Ok bytes))
                  else fakeNotificationIdentifier fake).
  { destruct (fakeAps payload) as [aps|];
      [destruct (alertIsString (Alert aps));
       [|destruct (mapstructure_Decode (Alert aps))]|];
      injection Hn' as <- _; reflexivity. }
  destruct (String.eqb (fakeNotificationIdentifier fake) ""); [|exact Hid].
  split; [|exact Hid].
  unfold identifier_rejected. rewrite Hid.
  apply generated_identifier_passes.
Qed.

End NewAndDecoded.


Lemma unmarshal_identifier_witness :
  let fake :=
    mkFakeNotification (Some (mkFakePayload None (∅ : gmap string string)))
                       zeros64 "" None x0a in
  exists n',
    UnmarshalJSON "" (fun _ => true) Ok (Ok fake)
      (NewNotification "" (Ok [x01; x02; x03; x04])) = Some (n', None)
    /\ identifier_rejected n' = false
    /\ NotificationIdentifier n' = "01020304"%string.
Proof.
  intros fake. eexists. split; [reflexivity|].
  exact (unmarshal_identifier "" (fun _ => true) Ok fake [x01; x02; x03; x04]
           _ None eq_refl).
Defined.

(** The notification [hello]. *)
Lemma frame_reads_back_witness :
  ExpirationDate hello = None
  /\ PushNotificationCommand_Bytes PlainJSON.Marshal hello = Ok (frame_of hello)
  /\ exists payload,
       JSON PlainJSON.Marshal (NotificationPayload hello) = Ok payload
       /\ read_frame (frame_of hello)
          = Some (len (frame_of hello) - 5,
                  [ mkItem 1 32 (hex_DecodeString (DeviceToken hello)).1;
                    mkItem 2 (len payload) payload;
                    mkItem 3 4 (hex_DecodeString (NotificationIdentifier hello)).1;
                    mkItem 5 1 [Priority hello] ]).
Proof.
  split; [reflexivity|]. split; [reflexivity|].
  apply (frame_reads_back PlainJSON.Marshal hello (frame_of hello));
    reflexivity.
Defined.

(** The notification [expiring], whose payload has 40 bytes. *)
Lemma frame_length_witness :
  PushNotificationCommand_Bytes PlainJSON.Marshal expiring = Ok (frame_of expiring)
  /\ exists payload,
       JSON PlainJSON.Marshal (NotificationPayload expiring) = Ok payload
       /\ len (frame_of expiring)
          = 54 + len payload
            + match ExpirationDate expiring with Some _ => 11 | None => 0 end
       /\ 54 <= len (frame_of expiring) <= 2113.
Proof.
  split; [reflexivity|].
  apply (frame_length PlainJSON.Marshal expiring (frame_of expiring)).
  reflexivity.
Defined.

(** The payload of [hello], with its custom field "weather". *)
Lemma custom_fields_are_flattened_witness :
  PayloadAps hello_payload = Some (mkAps "hi" 0 "" 0 "")
  /\ customValues hello_payload !! "aps" = None
  /\ exists m,
       MarshalJSON PlainJSON.Marshal hello_payload = PlainJSON.Marshal m
       /\ m !! "aps" = Some (FieldAps (mkAps "hi" 0 "" 0 ""))
       /\ (forall key, key <> "aps" ->
           m !! key = FieldCustom <$> customValues hello_payload !! key)
       /\ dom m = {["aps"]} ∪ dom (customValues hello_payload).
Proof.
  split; [reflexivity|]. split; [reflexivity|].
  apply (custom_fields_are_flattened PlainJSON.Marshal hello_payload
           (mkAps "hi" 0 "" 0 "")); reflexivity.
Defined.

(** The field "weather" of [hello] set to "rain", then to "snow". *)
Lemma AddCustomField_then_MarshalJSON_witness :
  PayloadAps hello_payload = Some (mkAps "hi" 0 "" 0 "")
  /\ customValues hello_payload !! "aps" = None
  /\ MarshalJSON PlainJSON.Marshal
       (AddCustomField "weather" "snow" (AddCustomField "weather" "rain" hello_payload))
     = PlainJSON.Marshal
         (<["weather" := FieldCustom "snow"]>
            (payload_map (mkAps "hi" 0 "" 0 "") (customValues hello_payload))).
Proof.
  split; [reflexivity|]. split; [reflexivity|].
  exact (AddCustomField_then_MarshalJSON PlainJSON.Marshal hello_payload
           (mkAps "hi" 0 "" 0 "") "weather" "rain" "snow" eq_refl eq_refl).
Defined.

(** ** The feedback service, record by record *)

Lemma addEntryFromBytes_record (fs : FeedbackResponse) (data : list byte) :
  length data = 38%nat ->
  addEntryFromBytes fs data
  = (mkFeedbackResponse
       (Devices fs ++ [mkFeedbackDeviceEntry (BigEndian_uint (take 4 data))
                         (hex_EncodeToString (drop 6 data))]), None).
Proof.
  intros Hd. unfold addEntryFromBytes, len. rewrite Hd. simpl negb. cbv iota.
  do 4 (destruct data as [|? data]; [discriminate Hd|]). reflexivity.
Qed.

Lemma addEntryFromBytes_other (fs : FeedbackResponse) (data : list byte) :
  length data <> 38%nat ->
  addEntryFromBytes fs data = (fs, Some unrecognized_entry).
Proof.
  intros Hd. unfold addEntryFromBytes, len, TimestampItemLength,
    DeviceTokenLengthItemLength, DeviceTokenItemLength.
  replace (Z.of_nat (length data) =? 4 + 2 + 32) with false
    by (symmetry; apply Z.eqb_neq; lia).
  reflexivity.
Qed.

(** X9. [addEntryFromBytes] accepts its input exactly when it is 38
    bytes long. A rejected input leaves the response as it was and the
    error is always "Unrecognized Feedback Service entry": the error of
    [binary.Read] never occurs. An accepted input adds one entry at the
    end and keeps the entries that were there. *)
Theorem feedback_entry_accepted_iff (fs : FeedbackResponse) (data : list byte) :
  ((addEntryFromBytes fs data).2 = None <-> length data = 38%nat)
  /\ match (addEntryFromBytes fs data).2 with
     | None =>
         exists entry,
           Devices (addEntryFromBytes fs data).1 = Devices fs ++ [entry]
     | Some e =>
         e = unrecognized_entry /\ (addEntryFromBytes fs data).1 = fs
     end.
Proof.
  destruct (decide (length data = 38%nat)) as [Hd|Hd].
  - rewrite (addEntryFromBytes_record fs data Hd). cbn [fst snd Devices].
    split; [tauto | eauto].
  - rewrite (addEntryFromBytes_other fs data Hd). cbn [fst snd].
    split; [split; [discriminate | tauto] | tauto].
Qed.

(** X10. From the feedback service back to the gateway: the device token
    of an entry that [addEntryFromBytes] added decodes to the bytes 6..38
    of the record, and passes the device-token check of
    [Notification.Bytes] in any notification. *)
Theorem feedback_token_is_a_device_token {any : Type}
    (fs fs' : FeedbackResponse) (data : list byte) :
  addEntryFromBytes fs data = (fs', None) ->
  exists entry,
    Devices fs' = Devices fs ++ [entry]
    /\ hex_DecodeString (FeedbackDeviceToken entry) = (drop 6 data, None)
    /\ forall (payload : option (Payload any)) (identifier : string)
              (date : option Z) (priority : byte),
         token_rejected
           (mkNotification (FeedbackDeviceToken entry) payload identifier
                           date priority) = false.
Proof.
  destruct (decide (length data = 38%nat)) as [Hd|Hd].
  - rewrite (addEntryFromBytes_record fs data Hd). intros [= <-].
    eexists. split; [reflexivity|]. cbn [FeedbackDeviceToken].
    split; [apply hex_DecodeString_EncodeToString|].
    intros payload identifier date priority.
    unfold token_rejected. cbn [DeviceToken].
    rewrite hex_DecodeString_EncodeToString.
    unfold len. rewrite length_drop, Hd. reflexivity.
  - rewrite (addEntryFromBytes_other fs data Hd). discriminate.
Qed.

Lemma feedback_token_is_a_device_token_witness :
  exists entry,
    Devices (addEntryFromBytes (mkFeedbackResponse []) feedback_record).1 = [entry]
    /\ hex_DecodeString (FeedbackDeviceToken entry) = (repeat xff 32, None)
    /\ token_rejected
         (mkNotification (FeedbackDeviceToken entry) (Some hello_payload)
                         "aabbccdd" None x0a) = false.
Proof.
  destruct (feedback_token_is_a_device_token (any := string)
              (mkFeedbackResponse [])
              (addEntryFromBytes (mkFeedbackResponse []) feedback_record).1
              feedback_record eq_refl)
    as (entry & Hdevices & Hdecode & Hcheck).
  exists entry. split; [exact Hdevices|]. split; [exact Hdecode|]. apply Hcheck.
Defined.

Lemma feedback_loop_records
    (reads : list ReadResult) (responseBytes : list byte) (rsp : FeedbackResponse) :
  length responseBytes = 38%nat ->
  Forall (fun r => length (read_data r) = 38%nat /\ read_err r = None) reads ->
  feedback_loop reads responseBytes rsp
  = (mkFeedbackResponse
       (Devices rsp
        ++ map (fun r => mkFeedbackDeviceEntry
                           (BigEndian_uint (take 4 (read_data r)))
                           (hex_EncodeToString (drop 6 (read_data r)))) reads),
     None).
Proof.
  intros Hbuf Hreads. revert responseBytes rsp Hbuf.
  induction Hreads as [|r reads [Hdata Herr] _ IH]; intros responseBytes rsp Hbuf.
  - cbn [feedback_loop map]. rewrite app_nil_r. now destruct rsp.
  - cbn [feedback_loop]. unfold conn_Read. rewrite Herr, Hbuf.
    rewrite (take_ge (read_data r)) by lia.
    rewrite Hdata, drop_ge, app_nil_r by lia.
    unfold len. rewrite Hdata. cbn [Z.gtb Z.compare Z.of_nat Pos.of_succ_nat].
    change (Z.of_nat 38 >? 0) with true. cbv iota.
    rewrite (addEntryFromBytes_record rsp (read_data r) Hdata). cbn [fst].
    rewrite (IH _ _ Hdata). cbn [Devices map]. now rewrite <- app_assoc.
Qed.

(** X11. When the feedback service sends whole records, one 38-byte
    record per read, and then closes the connection,
    [CheckFeedbackService] returns one entry per record, in the order in
    which they arrived, and no error. *)
Theorem feedback_records_are_collected (reads : list ReadResult) :
  Forall (fun r => length (read_data r) = 38%nat /\ read_err r = None) reads ->
  CheckFeedbackService None None reads
  = (Some (mkFeedbackResponse
             (map (fun r => mkFeedbackDeviceEntry
                              (BigEndian_uint (take 4 (read_data r)))
                              (hex_EncodeToString (drop 6 (read_data r)))) reads)),
     None).
Proof.
  intros Hreads. unfold CheckFeedbackService.
  now rewrite (feedback_loop_records reads (repeat x00 38) (mkFeedbackResponse [])
                 eq_refl Hreads).
Qed.

Lemma feedback_records_are_collected_witness :
  CheckFeedbackService None None
    [mkRead feedback_record None; mkRead (repeat x01 38) None]
  = (Some (mkFeedbackResponse
             [ mkFeedbackDeviceEntry 1 (hex_EncodeToString (repeat xff 32));
               mkFeedbackDeviceEntry 16843009 (hex_EncodeToString (repeat x01 32)) ]),
     None).
Proof.
  apply (feedback_records_are_collected
           [mkRead feedback_record None; mkRead (repeat x01 38) None]).
  repeat constructor.
Defined.

Lemma feedback_loop_ends
    (before after : list ReadResult) (r : ReadResult)
    (responseBytes : list byte) (rsp : FeedbackResponse) :
  is_EOF (read_err r) || is_Timeout (read_err r) = true ->
  feedback_loop (before ++ r :: after) responseBytes rsp
  = feedback_loop (before ++ [r]) responseBytes rsp.
Proof.
  intros Hend. revert responseBytes rsp.
  induction before as [|r0 before IH]; intros responseBytes rsp.
  - cbn [app feedback_loop]. unfold conn_Read.
    destruct (read_err r) as [[]|]; try discriminate Hend; reflexivity.
  - cbn [app feedback_loop]. unfold conn_Read.
    destruct (read_err r0) as [e|]; [|apply IH].
    destruct (is_EOF (Some e)); [reflexivity|].
    destruct (is_Timeout (Some e)); [reflexivity|apply IH].
Qed.

(** X12. [CheckFeedbackService] stops reading at the first read that
    ends in EOF or in a timeout: what the peer would send afterwards
    does not change the result. *)
Theorem feedback_ends_at_eof_or_timeout
    (dial handshake : option error)
    (before after : list ReadResult) (r : ReadResult) :
  is_EOF (read_err r) || is_Timeout (read_err r) = true ->
  CheckFeedbackService dial handshake (before ++ r :: after)
  = CheckFeedbackService dial handshake (before ++ [r]).
Proof.
  intros Hend. unfold CheckFeedbackService.
  now rewrite (feedback_loop_ends before after r _ _ Hend).
Qed.

Lemma feedback_ends_at_eof_or_timeout_witness :
  CheckFeedbackService None None
    ([mkRead feedback_record None] ++ mkRead [] (Some net_Timeout)
       :: [mkRead (repeat x01 38) None])
  = CheckFeedbackService None None
      ([mkRead feedback_record None] ++ [mkRead [] (Some net_Timeout)]).
Proof.
  exact (feedback_ends_at_eof_or_timeout None None
           [mkRead feedback_record None] [mkRead (repeat x01 38) None]
           (mkRead [] (Some net_Timeout)) eq_refl).
Defined.

(** ** Error responses outside the table *)

Lemma error_response_text (data : list byte) (cmd : option Command) (desc : string) :
  len data = 6 ->
  PushNotificationErrorStatuses !! byte_to_Z (nth 1 data x00) = Some desc ->
  (exists msg, commandError (NewCommandErrorFromAPNSResponse data cmd)
               = Some (errors_New ("apns: " ++ msg)))
  /\ exists msg, CommandError_Error (NewCommandErrorFromAPNSResponse data cmd)
                 = ("apns: " ++ msg)%string.
Proof.
  intros Hlen Hdesc.
  unfold CommandError_Error, NewCommandErrorFromAPNSResponse, status_description.
  rewrite Hlen, Hdesc. simpl.
  rewrite (status_description_nonempty _ _ Hdesc). simpl.
  split; eexists; reflexivity.
Qed.

Lemma unknown_status_has_no_error_message (data : list byte) (cmd : option Command) :
  len data = 6 ->
  PushNotificationErrorStatuses !! byte_to_Z (nth 1 data x00) = None ->
  CommandError_Error (NewCommandErrorFromAPNSResponse data cmd) = ""%string.
Proof.
  intros Hlen Hnone. unfold CommandError_Error.
  now rewrite (unknown_status_has_no_error data cmd Hlen Hnone).
Qed.

(** X13. The message of the error built from an APNS response is empty
    exactly when the response has 6 bytes and its status byte is 9 or
    lies between 11 and 254: such a response gives a command error that
    wraps no error at all. The command is carried along in every case. *)
Theorem error_response_message_empty_iff (data : list byte) (cmd : option Command) :
  let status := byte_to_Z (nth 1 data x00) in
  (CommandError_Error (NewCommandErrorFromAPNSResponse data cmd) = ""%string
   <-> len data = 6 /\ (status = 9 \/ 11 <= status <= 254))
  /\ (commandError (NewCommandErrorFromAPNSResponse data cmd) = None
      <-> len data = 6 /\ (status = 9 \/ 11 <= status <= 254))
  /\ command (NewCommandErrorFromAPNSResponse data cmd) = cmd.
Proof.
  intros status.
  pose proof (byte_to_Z_range (nth 1 data x00)) as Hrange. fold status in Hrange.
  pose proof (status_table_domain status) as Hdomain.
  assert (Houtside : PushNotificationErrorStatuses !! status = None
                     <-> status = 9 \/ 11 <= status <= 254).
  { rewrite eq_None_not_Some, Hdomain. rewrite !elem_of_cons, elem_of_nil. lia. }
  destruct (decide (len data = 6)) as [Hlen|Hlen].
  - destruct (PushNotificationErrorStatuses !! status) as [desc|] eqn:Hdesc.
    + destruct (error_response_text data cmd desc Hlen Hdesc)
        as [[msg Herr] [msg' Hmsg]].
      rewrite Hmsg, Herr. repeat split; try reflexivity; try discriminate.
      all: intros [_ Hout]; apply Houtside in Hout; discriminate.
    + rewrite (unknown_status_has_no_error_message data cmd Hlen Hdesc).
      rewrite (unknown_status_has_no_error data cmd Hlen Hdesc).
      pose proof (proj1 Houtside eq_refl). tauto.
  - unfold CommandError_Error.
    rewrite (wrong_length_is_unrecognized data cmd Hlen).
    repeat split; try reflexivity; try discriminate; tauto.
Qed.

(** ** The worker's turn, case by case *)

(** X14. A command that does not encode costs nothing on the
    connection: whatever the peer would do, nothing is written, no
    reconnect is scheduled, the encode error is raised for the command,
    and the worker signals ready again. *)
Theorem unencodable_command_is_not_written
    (peer : Peer) (cmd : Command) (e : error) (w : World) :
  turn_ready w ->
  Bytes cmd = Err e ->
  exists w',
    executionLoopTurn peer cmd w = Done tt w'
    /\ written w' = written w
    /\ reconnects w' = reconnects w
    /\ errorSignal w' = errorSignal w ++ [NewCommandError (Some e) (Some cmd)]
    /\ pauseSignal w' = pauseSignal w
    /\ ch_buf (readySignal w') = [true]
    /\ ch_closed (cmdErrors w') = true.
Proof.
  intros Hready Hbytes. exists (after_turn peer cmd w).
  split; [now apply executionLoopTurn_after_turn|].
  unfold after_turn, raised_errors, reconnect_scheduled. rewrite Hbytes.
  cbn [written reconnects errorSignal pauseSignal readySignal cmdErrors
       ch_buf ch_closed].
  rewrite app_nil_r. repeat split.
Qed.

Lemma unencodable_command_is_not_written_witness :
  exists w',
    executionLoopTurn peer_invalid_token short_token_command world_listening
    = Done tt w'
    /\ written w' = []
    /\ reconnects w' = 0%nat
    /\ ch_buf (readySignal w') = [true].
Proof.
  assert (Hready : turn_ready world_listening) by (repeat split; reflexivity).
  destruct (unencodable_command_is_not_written peer_invalid_token
              short_token_command device_token_length_error world_listening
              Hready eq_refl)
    as (w' & Hrun & Hwritten & Hreconnects & _ & _ & Hsignal & _).
  exists w'. repeat split; assumption.
Defined.

(** X15. When the write fails the response is not read: what the peer
    would answer does not matter. The frame was handed to [Write] once.
    On EOF the error raised is "Error writing data. Connection appears
    to be closed by peer", a reconnect is scheduled and the worker does
    not signal ready; any other write error is raised as it is, and the
    worker signals ready on the same connection. *)
Theorem write_error_skips_the_read
    (peer : Peer) (cmd : Command) (cmdBytes : list byte) (e : error) (w : World) :
  turn_ready w ->
  Bytes cmd = Ok cmdBytes ->
  write_err peer = Some e ->
  exists w',
    executionLoopTurn peer cmd w = Done tt w'
    /\ (forall r : ReadResult,
          executionLoopTurn (mkPeer (Some e) r) cmd w = Done tt w')
    /\ written w' = written w ++ [cmdBytes]
    /\ errorSignal w'
       = errorSignal w
         ++ [NewCommandError
               (Some (if is_EOF (Some e) then write_closed_by_peer else e))
               (Some cmd)]
    /\ reconnects w'
       = (if is_EOF (Some e) then S (reconnects w) else reconnects w)
    /\ ch_buf (readySignal w')
       = (if is_EOF (Some e) then ch_buf (readySignal w) else [true]).
Proof.
  intros Hready Hbytes Hwrite. exists (after_turn peer cmd w).
  split; [now apply executionLoopTurn_after_turn|].
  split.
  { intros r. rewrite (executionLoopTurn_after_turn _ cmd w Hready).
    unfold after_turn, raised_errors, reconnect_scheduled.
    now rewrite Hbytes, Hwrite. }
  unfold after_turn, raised_errors, reconnect_scheduled.
  rewrite Hbytes, Hwrite.
  cbn [written reconnects errorSignal pauseSignal readySignal cmdErrors
       ch_buf ch_closed].
  destruct (is_EOF (Some e)); repeat split.
Qed.

Lemma write_error_skips_the_read_witness :
  exists w',
    executionLoopTurn (mkPeer (Some io_EOF) (mkRead odd_response None))
      hello_command world_listening = Done tt w'
    /\ executionLoopTurn (mkPeer (Some io_EOF) (mkRead [] (Some net_Timeout)))
         hello_command world_listening = Done tt w'
    /\ reconnects w' = 1%nat.
Proof.
  assert (Hready : turn_ready world_listening) by (repeat split; reflexivity).
  destruct (write_error_skips_the_read
              (mkPeer (Some io_EOF) (mkRead odd_response None))
              hello_command (frame_of hello) io_EOF world_listening
              Hready eq_refl eq_refl)
    as (w' & Hrun & Hany & _ & _ & Hreconnects & _).
  exists w'. split; [exact Hrun|]. split; [apply Hany | exact Hreconnects].
Defined.

(** X16. Any byte read after the write counts as an error response: the
    six-byte buffer, zero beyond what was read, is decoded (so never as
    an unrecognized response), the decoded error is the first one raised
    for the command, a reconnect is scheduled and the worker does not
    signal ready. *)
Theorem response_bytes_force_reconnect
    (peer : Peer) (cmd : Command) (cmdBytes : list byte) (w : World) :
  turn_ready w ->
  Bytes cmd = Ok cmdBytes ->
  write_err peer = None ->
  read_data (response peer) <> [] ->
  exists w' responseBytes rest,
    executionLoopTurn peer cmd w = Done tt w'
    /\ responseBytes
       = take 6 (read_data (response peer))
         ++ drop (length (take 6 (read_data (response peer)))) (repeat x00 6)
    /\ len responseBytes = 6
    /\ errorSignal w'
       = errorSignal w
         ++ NewCommandErrorFromAPNSResponse responseBytes (Some cmd) :: rest
    /\ written w' = written w ++ [cmdBytes]
    /\ reconnects w' = S (reconnects w)
    /\ ch_buf (readySignal w') = ch_buf (readySignal w).
Proof.
  intros Hready Hbytes Hwrite Hdata.
  assert (Hread : (len (take 6 (read_data (response peer))) >? 0) = true).
  { destruct (read_data (response peer)) as [|b data]; [congruence|].
    unfold len. cbn [take length]. apply Z.gtb_lt. lia. }
  exists (after_turn peer cmd w). eexists. eexists.
  split; [now apply executionLoopTurn_after_turn|].
  split; [reflexivity|].
  split.
  { unfold len. rewrite length_app, length_drop, length_take. cbn [repeat length]. lia. }
  unfold after_turn, raised_errors, reconnect_scheduled, conn_Read.
  rewrite Hbytes, Hwrite. cbn [repeat length]. rewrite Hread.
  cbn [written reconnects errorSignal pauseSignal readySignal cmdErrors
       ch_buf ch_closed orb app].
  repeat split.
Qed.

Lemma response_bytes_force_reconnect_witness :
  exists w' rest,
    executionLoopTurn (mkPeer None (mkRead [x08; x08] None)) hello_command
      world_listening = Done tt w'
    /\ errorSignal w'
       = NewCommandErrorFromAPNSResponse [x08; x08; x00; x00; x00; x00]
           (Some hello_command) :: rest
    /\ reconnects w' = 1%nat.
Proof.
  assert (Hready : turn_ready world_listening) by (repeat split; reflexivity).
  destruct (response_bytes_force_reconnect
              (mkPeer None (mkRead [x08; x08] None)) hello_command
              (frame_of hello) world_listening Hready eq_refl eq_refl)
    as (w' & responseBytes & rest & Hrun & -> & _ & Herrors & _ & Hreconnects & _).
  { discriminate. }
  exists w', rest. split; [exact Hrun|]. split; [exact Herrors | exact Hreconnects].
Defined.

(** X17. Whatever happens in a turn, the worker's loop can go on after
    it: the turn returns, the pause signal that [reconnect] sent has
    been taken again, the client's queues are untouched, [Write] was
    called at most once, and either the worker has signalled ready and
    no reconnect was started, or one reconnect was started and the ready
    signal is left to it. *)
Theorem turn_leaves_the_worker_consistent
    (peer : Peer) (cmd : Command) (w : World) :
  turn_ready w ->
  exists w',
    executionLoopTurn peer cmd w = Done tt w'
    /\ signal_idle (pauseSignal w')
    /\ commandsQueue w' = commandsQueue w
    /\ workerQueue w' = workerQueue w
    /\ (length (written w') <= S (length (written w)))%nat
    /\ (ch_buf (readySignal w') = [true] /\ reconnects w' = reconnects w
        \/ ch_buf (readySignal w') = [] /\ reconnects w' = S (reconnects w)).
Proof.
  intros Hready. exists (after_turn peer cmd w).
  split; [now apply executionLoopTurn_after_turn|].
  destruct Hready as (Hpause & (_ & Hbuf & _) & _).
  unfold after_turn.
  cbn [written reconnects errorSignal pauseSignal readySignal cmdErrors
       commandsQueue workerQueue ch_buf ch_closed].
  split.
  { destruct (reconnect_scheduled peer cmd); [repeat split | exact Hpause]. }
  split; [reflexivity|]. split; [reflexivity|].
  split.
  { rewrite length_app. destruct (Bytes cmd); cbn [length]; lia. }
  destruct (reconnect_scheduled peer cmd); [right | left]; split;
    [exact Hbuf | reflexivity | reflexivity | reflexivity].
Qed.

Lemma turn_leaves_the_worker_consistent_witness :
  exists w',
    executionLoopTurn peer_invalid_token hello_command world_listening
    = Done tt w'
    /\ signal_idle (pauseSignal w')
    /\ workerQueue w' = workerQueue world_listening.
Proof.
  assert (Hready : turn_ready world_listening) by (repeat split; reflexivity).
  destruct (turn_leaves_the_worker_consistent peer_invalid_token hello_command
              world_listening Hready)
    as (w' & Hrun & Hpause & _ & Hworkers & _).
  exists w'. repeat split; solve [apply Hrun | apply Hpause | exact Hworkers].
Defined.

(** ** The HTTP handlers *)



Section RawNotification.

Context {any : Type}.
Variable json_Marshal : gmap string (PayloadField any) -> Result (list byte).
Variable nil : any.
Variable alertIsString : any -> bool.
Variable mapstructure_Decode : any -> Result any.

(** The state in which the worker takes the command of a request: the
    command's channel is the one the handler made, with the handler
    parked on it or not. *)
Lemma turn_ready_for_request
    (q : chan Command) (wq : chan nat) (p r : chan bool)
    (es : list CommandError) (listeners : nat) (wr : list (list byte))
    (rc cc : nat) :
  signal_idle p ->
  signal_idle r ->
  turn_ready (mkWorld q wq p r es (mkChan 0 [] listeners false []) wr rc cc).
Proof. intros Hp Hr. repeat split; solve [apply Hp | apply Hr]. Qed.

(** What the handler is handed when the queue took its command and a
    worker ran it, by the moment at which the handler came to its
    receive. *)
Lemma await_command_error_handed
    (peer : Peer) (cmd : Command) (arrival : Arrival)
    (q : chan Command) (wq : chan nat) (id : nat) (rest : list nat)
    (p r : chan bool) (es : list CommandError) (wr : list (list byte))
    (rc cc : nat) :
  signal_idle p ->
  signal_idle r ->
  ch_buf wq = id :: rest ->
  exists w',
    await_command_error peer cmd arrival
      (mkWorld q wq p r es (make_chan 0) wr rc cc)
    = Done (head match arrival with
                 | BeforeOffers => raised_errors peer cmd
                 | BetweenOffers => returned_errors peer cmd
                 | _ => []
                 end) w'
    /\ errorSignal w' = es ++ raised_errors peer cmd
    /\ ch_closed (cmdErrors w') = true.
Proof.
  intros Hp Hr Hwq.
  unfold await_command_error, make_chan. world_fields. cbv iota.
  unfold received_so_far, park_listeners, await_worker.
  unfold bindM. world_fields. rewrite Hwq. cbn [length Nat.add].
  pose proof (at_most_two_errors peer cmd) as [Hfirst Hsecond].
  rewrite raised_errors_by_place.
  destruct arrival;
    match goal with
    | |- context [executionLoopTurn_arrivals ?d ?a peer cmd ?w2] =>
        destruct (executionLoopTurn_arrivals_delivers peer cmd d a w2)
          as (w' & -> & Hsignal & Hchannel);
          [apply turn_ready_for_request; assumption|]
    end;
    world_fields_in_all; unfold delivered_errors in Hchannel;
    unfold receive_handed, receive_now, chan_try_recv;
    rewrite Hchannel; world_fields;
    destruct (response_errors peer cmd) as [|e1 [|? ?]];
    try (cbn [length] in Hfirst; lia);
    destruct (returned_errors peer cmd) as [|e2 [|? ?]];
    try (cbn [length] in Hsecond; lia);
    simpl in Hsignal |- *;
    eexists; (split; [reflexivity|]); world_fields;
    (split; [exact Hsignal | now rewrite ?Hchannel]).
Qed.

(** X19. The answers of the raw-notification endpoint. Anything but
    POST gets 405. A body on which [UnmarshalJSON] panics makes the
    handler panic, and a body that does not decode gets 409, before
    anything is submitted. A notification the queue does not take gets
    503 with the queue-full error; nothing is written to the gateway and
    no error reaches the worker's error signal. A notification the queue
    takes is run by a ready worker, and the answer depends on when the
    handler came to wait on the command's channel: before the worker's
    first offer, 409 with the first error raised for the command; after
    the offer in [executeCommand] and before the offer of the loop, 409
    with the error that [executeCommand] returned; in both cases 202 if
    there was no such error; after the offers, 202, also when errors
    were raised for the command. *)
Theorem raw_notification_answer
    (method : string) (random : Result (list byte))
    (decoded : Result (fakeNotification (any := any)))
    (peer : Peer) (arrival : Arrival) (w : World) :
  ch_closed (commandsQueue w) = false ->
  signal_idle (pauseSignal w) ->
  signal_idle (readySignal w) ->
  ch_buf (workerQueue w) <> [] ->
  let handler :=
    RawNotificationHandler json_Marshal nil alertIsString mapstructure_Decode
      method random decoded peer arrival in
  if negb (String.eqb method "POST")
  then handler w = Done (StatusMethodNotAllowed, NoData) w
  else
    match UnmarshalJSON nil alertIsString mapstructure_Decode decoded
            (NewNotification nil random) with
    | None => handler w = Panic
    | Some (_, Some e) =>
        handler w
        = Done (StatusConflict,
                ErrorData (if is_EOF (Some e) then missing_data else e)) w
    | Some (n, None) =>
        let cmd := PushNotificationCommand json_Marshal n in
        let q := commandsQueue w in
        exists w',
          if negb (ch_recvq q =? 0)%nat || (length (ch_buf q) <? ch_cap q)%nat
          then
            handler w
            = Done match head match arrival with
                              | BeforeOffers => raised_errors peer cmd
                              | BetweenOffers => returned_errors peer cmd
                              | _ => []
                              end with
                   | Some ce => (StatusConflict, CommandErrorData ce)
                   | None => (StatusAccepted, NotificationData n)
                   end w'
            /\ errorSignal w' = errorSignal w ++ raised_errors peer cmd
            /\ ch_closed (cmdErrors w') = true
          else
            handler w
            = Done (StatusServiceUnavailable,
                    CommandErrorData
                      (NewCommandError (Some queue_full) (Some cmd))) w'
            /\ written w' = written w
            /\ errorSignal w' = errorSignal w
    end.
Proof.
  intros Hopen Hp Hr Hworker handler. subst handler.
  unfold RawNotificationHandler.
  destruct (negb (String.eqb method "POST")); [reflexivity|].
  destruct (UnmarshalJSON nil alertIsString mapstructure_Decode decoded
              (NewNotification nil random)) as [[n [e|]]|];
    [reflexivity| |reflexivity].
  cbv zeta. set (cmd := PushNotificationCommand json_Marshal n).
  destruct (ch_buf (workerQueue w)) as [|id rest] eqn:Hwq; [congruence|].
  assert (Haccepted :
            forall q',
              chan_send (commandsQueue w) cmd = Sent q' ->
              exists w',
                (make_errorsChannel ;;;
                 do err <- ExecuteCommand cmd ;
                 do commandError <- await_command_error peer cmd arrival ;
                 match err with
                 | Some e => retM (StatusServiceUnavailable, CommandErrorData e)
                 | None =>
                     match commandError with
                     | Some ce => retM (StatusConflict, CommandErrorData ce)
                     | None => retM (StatusAccepted, NotificationData n)
                     end
                 end) w
                = Done match head match arrival with
                                  | BeforeOffers => raised_errors peer cmd
                                  | BetweenOffers => returned_errors peer cmd
                                  | _ => []
                                  end with
                       | Some ce => (StatusConflict, CommandErrorData ce)
                       | None => (StatusAccepted, NotificationData n)
                       end w'
                /\ errorSignal w' = errorSignal w ++ raised_errors peer cmd
                /\ ch_closed (cmdErrors w') = true).
  { intros q' Hsent.
    unfold bindM at 1. unfold make_errorsChannel.
    unfold bindM at 1. unfold ExecuteCommand. world_fields. rewrite Hsent.
    unfold bindM at 1. unfold with_commandsQueue, with_cmdErrors. world_fields.
    destruct (await_command_error_handed peer cmd arrival q'
                (workerQueue w) id rest (pauseSignal w) (readySignal w)
                (errorSignal w) (written w) (reconnects w) (closeCalls w)
                Hp Hr Hwq) as (w' & Hrun & Hsignal & Hclosed).
    rewrite Hrun. exists w'. split; [|split; assumption].
    now destruct (head _). }
  unfold chan_send in Haccepted. rewrite Hopen in Haccepted.
  destruct (negb (ch_recvq (commandsQueue w) =? 0)%nat) eqn:Hrecv; cbn [orb].
  - (* a receiver takes the command *)
    exact (Haccepted _ eq_refl).
  - destruct (length (ch_buf (commandsQueue w)) <? ch_cap (commandsQueue w))%nat
      eqn:Hroom.
    + (* the buffer takes the command *)
      exact (Haccepted _ eq_refl).
    + (* the queue is full *)
      clear Haccepted.
      unfold make_errorsChannel, ExecuteCommand, chan_send, close_errors,
        chan_close, await_command_error, receive_now, chan_try_recv, make_chan.
      unfold bindM. world_fields. rewrite Hopen, Hrecv, Hroom. world_fields.
      eexists; (split; [reflexivity|]); split; reflexivity.
Qed.

End RawNotification.

(** APNS rejects the notification and closes the connection; the handler
    comes to wait between the two offers: it answers 409 with the read
    error, the second of the two errors raised. *)
Lemma raw_notification_answer_witness :
  exists w',
    RawNotificationHandler PlainJSON.Marshal "" (fun _ => true) Ok "POST"
      (Ok [x01; x02; x03; x04]) (Ok hello_body) peer_rejects_and_closes
      BetweenOffers world_unheard
    = Done (StatusConflict,
            CommandErrorData
              (NewCommandError (Some read_closed_by_peer) (Some hello_command)))
           w'
    /\ errorSignal w' = [] ++ raised_errors peer_rejects_and_closes hello_command
    /\ ch_closed (cmdErrors w') = true.
Proof.
  assert (Hidle : signal_idle (make_chan 1)) by (repeat split).
  assert (Hworker : ch_buf (workerQueue world_unheard) <> []) by discriminate.
  exact (raw_notification_answer PlainJSON.Marshal "" (fun _ => true) Ok "POST"
           (Ok [x01; x02; x03; x04]) (Ok hello_body) peer_rejects_and_closes
           BetweenOffers world_unheard eq_refl Hidle Hidle Hworker).
Defined.

Section RequestWithoutWorker.

Context {any : Type}.
Variable json_Marshal : gmap string (PayloadField any) -> Result (list byte).
Variable nil : any.
Variable alertIsString : any -> bool.
Variable mapstructure_Decode : any -> Result any.

(** X20. A notification that the queue takes while no worker is ready is
    not answered, whenever the handler comes to its receive: the handler
    waits on the command's channel, which stays open, and nothing is
    written to the gateway until a worker registers. *)
Theorem request_waits_for_a_ready_worker
    (random : Result (list byte))
    (decoded : Result (fakeNotification (any := any)))
    (n : Notification any) (peer : Peer) (arrival : Arrival) (w : World) :
  UnmarshalJSON nil alertIsString mapstructure_Decode decoded
    (NewNotification nil random) = Some (n, None) ->
  ch_closed (commandsQueue w) = false ->
  negb (ch_recvq (commandsQueue w) =? 0)%nat
  || (length (ch_buf (commandsQueue w)) <? ch_cap (commandsQueue w))%nat = true ->
  ch_buf (workerQueue w) = [] ->
  exists w',
    RawNotificationHandler json_Marshal nil alertIsString mapstructure_Decode
      "POST" random decoded peer arrival w = Blocked w'
    /\ ch_closed (cmdErrors w') = false
    /\ written w' = written w
    /\ errorSignal w' = errorSignal w
    /\ closeCalls w' = closeCalls w.
Proof.
  intros Hbody Hopen Htaken Hnone.
  unfold RawNotificationHandler. cbn [String.eqb Ascii.eqb Bool.eqb negb].
  rewrite Hbody.
  cbv zeta. set (cmd := PushNotificationCommand json_Marshal n).
  unfold bindM at 1. unfold make_errorsChannel.
  unfold bindM at 1. unfold ExecuteCommand, chan_send.
  world_fields. rewrite Hopen.
  destruct (negb (ch_recvq (commandsQueue w) =? 0)%nat); cbn [orb] in Htaken.
  - unfold bindM at 1. unfold await_command_error. world_fields.
    destruct arrival;
      unfold received_so_far, park_listeners, await_worker; unfold bindM;
      world_fields; rewrite Hnone; eexists; repeat split.
  - rewrite Htaken.
    unfold bindM at 1. unfold await_command_error. world_fields.
    destruct arrival;
      unfold received_so_far, park_listeners, await_worker; unfold bindM;
      world_fields; rewrite Hnone; eexists; repeat split.
Qed.

End RequestWithoutWorker.

Lemma request_waits_for_a_ready_worker_witness :
  exists w',
    RawNotificationHandler PlainJSON.Marshal "" (fun _ => true) Ok "POST"
      (Ok [x01; x02; x03; x04]) (Ok hello_body) peer_silent BeforeOffers
      world_without_worker = Blocked w'
    /\ ch_closed (cmdErrors w') = false
    /\ written w' = [].
Proof.
  destruct (request_waits_for_a_ready_worker PlainJSON.Marshal ""
              (fun _ => true) Ok (Ok [x01; x02; x03; x04]) (Ok hello_body)
              hello peer_silent BeforeOffers world_without_worker
              eq_refl eq_refl eq_refl eq_refl)
    as (w' & Hrun & Hopen & Hwritten & _).
  exists w'. repeat split; assumption.
Defined.

(** ** From one command to the next *)

(** X21. After a turn the worker registers as ready again, once: at
    once when the turn scheduled no reconnect, and after the reconnect
    goroutine has connected otherwise. Its id goes to the end of the
    registry, or to a dispatcher waiting there, and both of its signals
    are idle again, as they were when it took the command. *)
Theorem worker_registers_again
    (peer : Peer) (cmd : Command) (id : nat) (w : World) :
  turn_ready w ->
  ch_closed (workerQueue w) = false ->
  (ch_recvq (workerQueue w) <> 0
   \/ length (ch_buf (workerQueue w)) < ch_cap (workerQueue w))%nat ->
  exists w1 w2,
    executionLoopTurn peer cmd w = Done tt w1
    /\ (if reconnect_scheduled peer cmd
        then do quit <- reconnect_routine None ; register_worker id
        else register_worker id) w1 = Done tt w2
    /\ (ch_buf (workerQueue w2) = ch_buf (workerQueue w) ++ [id]
        \/ ch_received (workerQueue w2) = ch_received (workerQueue w) ++ [Some id])
    /\ signal_idle (pauseSignal w2)
    /\ signal_idle (readySignal w2)
    /\ reconnects w2 = (if reconnect_scheduled peer cmd
                        then S (reconnects w) else reconnects w).
Proof.
  intros Hready Hopen Hroom.
  exists (after_turn peer cmd w).
  rewrite (executionLoopTurn_after_turn peer cmd w Hready).
  destruct Hready as (Hp & Hr & _).
  destruct w as [q wq p r es ce wr rc cc].
  destruct p as [pcap pbuf precv pclosed prec].
  destruct r as [rcap rbuf rrecv rclosed rrec].
  destruct wq as [wcap wbuf wrecv wclosed wrec].
  unfold signal_idle in *. simpl in Hp, Hr, Hopen, Hroom.
  destruct Hp as (-> & -> & -> & ->), Hr as (-> & -> & -> & ->). subst wclosed.
  unfold after_turn.
  destruct (reconnect_scheduled peer cmd);
    unfold reconnect_routine, send_readySignal, register_worker,
      chan_try_recv, chan_send, retM;
    unfold bindM; world_fields;
    try change ((length (@nil bool) <? 1)%nat) with true; cbv iota;
    world_fields; cbn [app];
    (destruct wrecv as [|k]; world_fields;
     [ assert (Hlt : (length wbuf <? wcap)%nat = true)
         by (apply Nat.ltb_lt; lia);
       rewrite Hlt
     | ]);
    eexists; (split; [reflexivity|]); (split; [reflexivity|]);
    world_fields; repeat split; auto.
Qed.

(** Worker 1 of two, taken from the registry for a command that APNS
    rejects, registers behind worker 2 after its reconnect. *)
Lemma worker_registers_again_witness :
  let w := with_workerQueue (mkChan 2 [2%nat] 0 false [Some 1%nat]) world_listening in
  exists w1 w2,
    executionLoopTurn peer_invalid_token hello_command w = Done tt w1
    /\ (do quit <- reconnect_routine None ; register_worker 1) w1 = Done tt w2
    /\ ch_buf (workerQueue w2) = [2; 1]%nat.
Proof.
  intros w.
  assert (Hready : turn_ready w) by (repeat split; reflexivity).
  assert (Hroom : (ch_recvq (workerQueue w) <> 0
                   \/ length (ch_buf (workerQueue w)) < ch_cap (workerQueue w))%nat)
    by (right; cbn; lia).
  destruct (worker_registers_again peer_invalid_token hello_command 1 w
              Hready eq_refl Hroom)
    as (w1 & w2 & Hturn & Hnext & Hqueue & _).
  exists w1, w2. split; [exact Hturn|]. split; [exact Hnext|].
  destruct Hqueue as [Hqueue|Hhanded]; [exact Hqueue|].
  vm_compute in Hturn. injection Hturn as <-.
  vm_compute in Hnext. now injection Hnext as <-.
Defined.

(** X22. A reconnect that fails retires the worker: the goroutine sends
    the connect error on the error signal, with no command attached, and
    goes on to the quit signal; it never sends the ready signal, so the
    registration step of the loop finds none to take, and the registry
    is as the turn left it. *)
Theorem failed_reconnect_retires_the_worker
    (peer : Peer) (cmd : Command) (id : nat) (err : error) (w : World) :
  turn_ready w ->
  reconnect_scheduled peer cmd = true ->
  exists w1 w2,
    executionLoopTurn peer cmd w = Done tt w1
    /\ reconnect_routine (Some err) w1 = Done true w2
    /\ errorSignal w2
       = errorSignal w ++ raised_errors peer cmd
         ++ [NewCommandError (Some err) None]
    /\ register_worker id w2 = Blocked w2
    /\ workerQueue w2 = workerQueue w
    /\ ch_buf (readySignal w2) = [].
Proof.
  intros Hready Hscheduled.
  exists (after_turn peer cmd w),
    (with_errorSignal
       (errorSignal (after_turn peer cmd w) ++ [NewCommandError (Some err) None])
       (after_turn peer cmd w)).
  split; [now apply executionLoopTurn_after_turn|].
  split; [reflexivity|].
  destruct Hready as (_ & (Hcap & Hbuf & Hrecv & Hclosed) & _).
  unfold after_turn. rewrite Hscheduled.
  unfold register_worker, chan_try_recv. world_fields.
  rewrite Hbuf, Hclosed. repeat split. now rewrite <- app_assoc.
Qed.

Lemma failed_reconnect_retires_the_worker_witness :
  exists w1 w2,
    executionLoopTurn peer_closes hello_command world_listening = Done tt w1
    /\ reconnect_routine (Some (net_OpError "connection refused")) w1
       = Done true w2
    /\ register_worker 1 w2 = Blocked w2.
Proof.
  assert (Hready : turn_ready world_listening) by (repeat split; reflexivity).
  destruct (failed_reconnect_retires_the_worker peer_closes hello_command 1
              (net_OpError "connection refused") world_listening Hready eq_refl)
    as (w1 & w2 & Hturn & Hroutine & _ & Hparked & _).
  exists w1, w2. repeat split; assumption.
Defined.
